(** * pyiron_contrib.protocol.graph: vertices, transition tables and the
      graph execution loop

    A shallow embedding of [src/pyiron_contrib/protocol/graph.py].

    Python objects are shared and mutable, so vertex objects live in a heap
    keyed by object identity; the [Vertices] collection, the [Graph] cursor
    and the arguments of [set_flow_chain] hold references into it.  Every
    method is a function in a state-and-exception monad over the state of one
    [Graph] object together with that heap: an exception leaves the state as
    mutated so far, as in Python. *)

From stdpp Require Import gmap strings list fin_maps.
From Stdlib Require Import ZArith.

Local Open Scope Z_scope.

(** ** Python values, keys and exceptions *)

(** Object identity ([id(obj)]). *)
Abbreviation loc := positive.

(** A dictionary key or a vertex name: Python's [None] or a [str]. *)
Abbreviation pykey := (option string).

(** The values the collections can be handed.  Every heap object is an
    instance of [Vertex] (or of its subclass [Graph]); the other values are
    not. *)
Inductive pyval : Type :=
  | PyNone
  | PyStr (s : string)
  | PyInt (z : Z)
  | PyObj (l : loc).

(** [isinstance(value, Vertex)] *)
Definition isinstance_Vertex (value : pyval) : bool :=
  match value with PyObj _ => true | _ => false end.

Inductive exn : Type :=
  | TypeError
  | ValueError
  | KeyError
  | IndexError
  | AttributeError
  | ReferenceError.   (* a reference to no object: never raised on a closed heap *)

Inductive Res (A : Type) : Type :=
  | Ok (a : A)
  | Raise (e : exn).
Arguments Ok {A} a.
Arguments Raise {A} e.

(** The two warnings the graph logs, with the graph's name they are
    formatted with. *)
Inductive warning : Type :=
  | StartingVertexNotSet (graph_name : pykey)
  | NoRestartingVertex (graph_name : pykey).

(** ** Insertion-ordered dictionaries

    [Vertices] is iterated ([self.vertices.values()]), and a Python [dict]
    iterates in the order in which its keys were first inserted; assigning
    to a key that is present keeps the key's position. *)
Module Dict.
Section Dict.
Context {V : Type}.

Fixpoint get (k : pykey) (d : list (pykey * V)) : option V :=
  match d with
  | [] => None
  | (k', v) :: d' => if decide (k = k') then Some v else get k d'
  end.

Fixpoint set (k : pykey) (v : V) (d : list (pykey * V)) : list (pykey * V) :=
  match d with
  | [] => [(k, v)]
  | (k', v') :: d' =>
      if decide (k = k') then (k, v) :: d' else (k', v') :: set k v d'
  end.

Definition values (d : list (pykey * V)) : list V := d.*2.

End Dict.
End Dict.

(** ** The data model *)

(** [Input] and [Output] come from [pyiron_contrib.protocol.io], which is not
    part of the sources; they stay abstract, as do the resolved keyword
    arguments of a vertex function and the values it produces. *)
Class IOTypes : Type := {
  Input : Type;
  Output : Type;
  Kwargs : Type;
  Value : Type;
}.

Section Protocol.
Context `{io : IOTypes}.

(** The attributes [Vertex.__init__] creates. *)
Record Vertex : Type := mkVertex {
  input : Input;
  output : Output;
  clock : Z;
  vertex_name : pykey;
  _vertex_state : string;
  possible_vertex_states : list string;
}.

Definition DEFAULT_STATE : string := "next".

(** [Vertex.__init__(vertex_name=...)]; [input0] and [output0] are [Input()]
    and [Output()] as [init_io_channels] leaves them. *)
Definition Vertex_init (input0 : Input) (output0 : Output) (name : pykey)
    : Vertex :=
  {| input := input0;
     output := output0;
     clock := 0;
     vertex_name := name;
     _vertex_state := DEFAULT_STATE;
     possible_vertex_states := [DEFAULT_STATE] |}.

Definition with_vertex_name (k : pykey) (v : Vertex) : Vertex :=
  {| input := input v; output := output v; clock := clock v;
     vertex_name := k;
     _vertex_state := _vertex_state v;
     possible_vertex_states := possible_vertex_states v |}.

Definition with_vertex_state (s : string) (v : Vertex) : Vertex :=
  {| input := input v; output := output v; clock := clock v;
     vertex_name := vertex_name v;
     _vertex_state := s;
     possible_vertex_states := possible_vertex_states v |}.

Definition with_possible_vertex_states (ss : list string) (v : Vertex)
    : Vertex :=
  {| input := input v; output := output v; clock := clock v;
     vertex_name := vertex_name v;
     _vertex_state := _vertex_state v;
     possible_vertex_states := ss |}.

Definition with_output (o : Output) (v : Vertex) : Vertex :=
  {| input := input v; output := o; clock := clock v;
     vertex_name := vertex_name v;
     _vertex_state := _vertex_state v;
     possible_vertex_states := possible_vertex_states v |}.

(** One [Graph] object and the vertex objects it can reach.  [self_vertex]
    holds the attributes the graph has as a [Vertex]; the other fields are
    the attributes [Graph.__init__] adds, and [warnings] is what the logger
    has been given. *)
Record World : Type := mkWorld {
  heap : gmap loc Vertex;
  self_vertex : Vertex;
  vertices : list (pykey * loc);
  edges : gmap pykey (gmap string pykey);
  starting_vertex : option loc;
  restarting_vertex : option loc;
  active_vertex : option loc;
  warnings : list warning;
}.

Definition with_heap (h : gmap loc Vertex) (w : World) : World :=
  {| heap := h; self_vertex := self_vertex w; vertices := vertices w;
     edges := edges w; starting_vertex := starting_vertex w;
     restarting_vertex := restarting_vertex w;
     active_vertex := active_vertex w; warnings := warnings w |}.

Definition with_self_vertex (v : Vertex) (w : World) : World :=
  {| heap := heap w; self_vertex := v; vertices := vertices w;
     edges := edges w; starting_vertex := starting_vertex w;
     restarting_vertex := restarting_vertex w;
     active_vertex := active_vertex w; warnings := warnings w |}.

Definition with_vertices (vs : list (pykey * loc)) (w : World) : World :=
  {| heap := heap w; self_vertex := self_vertex w; vertices := vs;
     edges := edges w; starting_vertex := starting_vertex w;
     restarting_vertex := restarting_vertex w;
     active_vertex := active_vertex w; warnings := warnings w |}.

Definition with_edges (es : gmap pykey (gmap string pykey)) (w : World)
    : World :=
  {| heap := heap w; self_vertex := self_vertex w; vertices := vertices w;
     edges := es; starting_vertex := starting_vertex w;
     restarting_vertex := restarting_vertex w;
     active_vertex := active_vertex w; warnings := warnings w |}.

Definition with_active_vertex (o : option loc) (w : World) : World :=
  {| heap := heap w; self_vertex := self_vertex w; vertices := vertices w;
     edges := edges w; starting_vertex := starting_vertex w;
     restarting_vertex := restarting_vertex w;
     active_vertex := o; warnings := warnings w |}.

Definition with_warnings (ws : list warning) (w : World) : World :=
  {| heap := heap w; self_vertex := self_vertex w; vertices := vertices w;
     edges := edges w; starting_vertex := starting_vertex w;
     restarting_vertex := restarting_vertex w;
     active_vertex := active_vertex w; warnings := ws |}.

(** ** The state-and-exception monad *)
Definition M (A : Type) : Type := World → Res A * World.

Definition ret {A} (a : A) : M A := λ w, (Ok a, w).

Definition bind {A B} (c : M A) (k : A → M B) : M B :=
  λ w, match c w with
       | (Ok a, w') => k a w'
       | (Raise e, w') => (Raise e, w')
       end.

Definition raise {A} (e : exn) : M A := λ w, (Raise e, w).
Definition gets {A} (f : World → A) : M A := λ w, (Ok (f w), w).
Definition modify (f : World → World) : M unit := λ w, (Ok tt, f w).

(** A computation that reads the state and may raise. *)
Definition lift {A} (f : World → Res A) : M A := λ w, (f w, w).

End Protocol.

Notation "x <- c ;; k" := (bind c (λ x, k))
  (at level 100, c at next level, right associativity).
Notation "c ;; k" := (bind c (λ _, k))
  (at level 100, right associativity).

(** The abstract methods: what a concrete [Vertex] or [Graph] subclass, and
    the [io] module, supply. *)
Class Methods `{io : IOTypes} : Type := {
  (** [Input.resolve()]: reads the live tree, may raise *)
  resolve : Input → World → Res Kwargs;
  (** [getattr(output, key).push(value)] *)
  push : Output → string → Value → Res Output;
  (** [Vertex.function] of the child vertex object at a location *)
  function : loc → Kwargs → M (list (string * Value));
  (** [Input()] and [Output()] of the graph after [init_io_channels] *)
  graph_input : Input;
  graph_output : Output;
  (** [Graph.set_vertices], [Graph.set_edges], [Graph.wire_data_flow],
      [Graph.get_output] *)
  set_vertices : M unit;
  set_edges : M unit;
  wire_data_flow : M unit;
  get_output : M (list (string * Value));
}.

(** ** The methods of [graph.py] *)
Section Operations.
Context `{mt : Methods}.

(** [for x in xs: body(x)] *)
Fixpoint for_each {A} (xs : list A) (body : A → M unit) : M unit :=
  match xs with
  | [] => ret tt
  | x :: xs' => body x ;; for_each xs' body
  end.

(** [enumerate(xs)], counting from [n] *)
Fixpoint enumerate_from {A} (n : nat) (xs : list A) : list (nat * A) :=
  match xs with
  | [] => []
  | x :: xs' => (n, x) :: enumerate_from (S n) xs'
  end.

(** [self] in a [Vertex] method: a child vertex object of the heap, or the
    graph itself. *)
Inductive receiver : Type :=
  | Child (l : loc)
  | GraphSelf.

(** Reading the attributes of an object. *)
Definition deref (self : receiver) : M Vertex :=
  λ w, match self with
       | Child l =>
           match heap w !! l with
           | Some v => (Ok v, w)
           | None => (Raise ReferenceError, w)
           end
       | GraphSelf => (Ok (self_vertex w), w)
       end.

(** Assigning to attributes of an object, in place. *)
Definition mutate (self : receiver) (f : Vertex → Vertex) : M unit :=
  λ w, match self with
       | Child l =>
           match heap w !! l with
           | Some v => (Ok tt, with_heap (<[l := f v]> (heap w)) w)
           | None => (Raise ReferenceError, w)
           end
       | GraphSelf => (Ok tt, with_self_vertex (f (self_vertex w)) w)
       end.

(** Modelled from the spec: [LoggerMixin] is not part of the sources.  A
    configuration warning is non-fatal and logged, so [self.logger.warn(...)]
    appends its message to [warnings] and returns. *)
Definition warn (msg : warning) : M unit :=
  modify (λ w, with_warnings (warnings w ++ [msg]) w).

(** *** Vertex *)

(** The [vertex_state] setter. *)
Definition Vertex_set_vertex_state (self : receiver) (new_state : string)
    : M unit :=
  v <- deref self ;;
  if decide (new_state ∉ possible_vertex_states v)
  then raise ValueError
  else mutate self (with_vertex_state new_state).

(** [self.input.resolve()] *)
Definition Vertex_resolve_input (self : receiver) : M Kwargs :=
  v <- deref self ;; lift (resolve (input v)).

(** [Vertex.update_and_archive]: each produced value is pushed on the output
    channel of its key; [_update_archive] does nothing. *)
Definition Vertex_update_and_archive (self : receiver)
    (output_data : list (string * Value)) : M unit :=
  for_each output_data (λ item,
    v <- deref self ;;
    match push (output v) item.1 item.2 with
    | Ok o => mutate self (with_output o)
    | Raise e => raise e
    end).

(** [Vertex.execute] of the child vertex at [l].  The [print] call formats
    [self.input.resolve()], so the input is resolved twice; what is printed
    is not modelled. *)
Definition Vertex_execute (l : loc) : M unit :=
  Vertex_resolve_input (Child l) ;;
  kwargs <- Vertex_resolve_input (Child l) ;;
  output_data <- function l kwargs ;;
  Vertex_update_and_archive (Child l) output_data.

(** *** DotDict, Vertices, Edges *)

(** [Vertices.__setitem__] *)
Definition Vertices_setitem (key : pykey) (value : pyval) : M unit :=
  match value with
  | PyObj l =>
      mutate (Child l) (with_vertex_name key) ;;
      modify (λ w, with_vertices (Dict.set key l (vertices w)) w)
  | _ => raise TypeError
  end.

(** [DotDict.__setattr__] on a [Vertices]: [vertices.key = value] *)
Definition Vertices_setattr (key : string) (value : pyval) : M unit :=
  Vertices_setitem (Some key) value.

(** [self.vertices[key]] *)
Definition Vertices_getitem (key : pykey) : M loc :=
  λ w, match Dict.get key (vertices w) with
       | Some l => (Ok l, w)
       | None => (Raise KeyError, w)
       end.

(** [DotDict({k: None for k in states})] *)
Definition dead_end (states : list string) : gmap string pykey :=
  list_to_map ((λ k, (k, None)) <$> states).

(** [Edges.__setitem__] *)
Definition Edges_setitem (key : pykey) (value : pyval) : M unit :=
  match value with
  | PyObj l =>
      v <- deref (Child l) ;;
      if decide (key ≠ vertex_name v)
      then raise ValueError
      else modify (λ w,
             with_edges
               (<[key := dead_end (possible_vertex_states v)]> (edges w)) w)
  | _ => raise TypeError
  end.

(** [DotDict.__setattr__] on an [Edges]: [edges.key = value] *)
Definition Edges_setattr (key : string) (value : pyval) : M unit :=
  Edges_setitem (Some key) value.

(** [Edges.initialize] *)
Definition Edges_initialize (vertex : loc) : M unit :=
  v <- deref (Child vertex) ;;
  Edges_setitem (vertex_name v) (PyObj vertex).

(** [self.edges[key]] *)
Definition Edges_getitem (key : pykey) : M (gmap string pykey) :=
  λ w, match edges w !! key with
       | Some row => (Ok row, w)
       | None => (Raise KeyError, w)
       end.

(** [args[i]] on a tuple *)
Definition tuple_getitem (args : list pyval) (i : nat) : M pyval :=
  match args !! i with
  | Some x => ret x
  | None => raise IndexError
  end.

(** The end of the body of the loop of [Edges.set_flow_chain], once [state]
    and [next_vertex] are known: the two checks and the assignment
    [self[vertex.vertex_name][state] = next_vertex.vertex_name]. *)
Definition set_flow_chain_edge (l : loc) (state : string)
    (next_vertex : pyval) : M unit :=
  match next_vertex with
  | PyObj l' =>
      v <- deref (Child l) ;;
      if decide (state ∉ possible_vertex_states v)
      then raise KeyError
      else
        v' <- deref (Child l') ;;
        row <- Edges_getitem (vertex_name v) ;;
        modify (λ w,
          with_edges
            (<[vertex_name v := <[state := vertex_name v']> row]> (edges w))
            w)
  | _ => raise TypeError
  end.

(** The body of the loop of [Edges.set_flow_chain] at index [n], where
    [vertex] is [args[n]]. *)
Definition set_flow_chain_body (args : list pyval) (item : nat * pyval)
    : M unit :=
  let '(n, vertex) := item in
  match vertex with
  | PyObj l =>
      next_obj <- tuple_getitem args (n + 1) ;;
      match next_obj with
      | PyStr state =>
          next_vertex <- tuple_getitem args (n + 2) ;;
          set_flow_chain_edge l state next_vertex
      | _ => set_flow_chain_edge l DEFAULT_STATE next_obj
      end
  | _ => ret tt
  end.

(** [Edges.set_flow_chain], on the tuple of its positional arguments *)
Definition Edges_set_flow_chain (args : list pyval) : M unit :=
  for_each (enumerate_from 0 (removelast args)) (set_flow_chain_body args).

(** *** Graph *)

(** [Graph._initialize_edges] *)
Definition Graph_initialize_edges : M unit :=
  vs <- gets vertices ;;
  for_each (Dict.values vs) Edges_initialize.

(** [Graph.__init__], given the object's state before initialisation. *)
Definition Graph_init : M unit :=
  modify (λ w,
    {| heap := heap w;
       self_vertex := Vertex_init graph_input graph_output None;
       vertices := [];
       edges := ∅;
       starting_vertex := None;
       restarting_vertex := None;
       active_vertex := active_vertex w;
       warnings := warnings w |}) ;;
  set_vertices ;;
  Graph_initialize_edges ;;
  set_edges ;;
  wire_data_flow ;;
  start <- gets starting_vertex ;;
  match start with
  | None =>
      v <- deref GraphSelf ;; warn (StartingVertexNotSet (vertex_name v))
  | Some _ => ret tt
  end ;;
  start <- gets starting_vertex ;;
  modify (with_active_vertex start).

(** [Graph.step] *)
Definition Graph_step : M unit :=
  vertex <- gets active_vertex ;;
  match vertex with
  | Some l =>
      v <- deref (Child l) ;;
      row <- Edges_getitem (vertex_name v) ;;
      match row !! _vertex_state v with
      | None => raise KeyError
      | Some None => modify (with_active_vertex None)
      | Some (Some next_vertex_name) =>
          next <- Vertices_getitem (Some next_vertex_name) ;;
          modify (with_active_vertex (Some next))
      end
  | None => ret tt
  end.

(** [Graph.reset].  The error message reads the two names; it is not
    modelled. *)
Definition Graph_reset : M unit :=
  active <- gets active_vertex ;;
  match active with
  | Some _ => raise ValueError
  | None =>
      restart <- gets restarting_vertex ;;
      match restart with
      | None =>
          v <- deref GraphSelf ;; warn (NoRestartingVertex (vertex_name v))
      | Some _ => ret tt
      end ;;
      modify (with_active_vertex restart)
  end.

(** The [while] loop of [Graph.function].  The loop need not end, so it runs
    on fuel: [None] is a loop still running when the fuel is spent.  Next to
    the outcome it returns the child vertices whose [execute] was called, in
    order. *)
Fixpoint Graph_function_loop (fuel : nat) (w : World)
    : option (list loc * (Res unit * World)) :=
  match active_vertex w with
  | None => Some ([], (Ok tt, w))
  | Some l =>
      match fuel with
      | O => None
      | S fuel' =>
          match (Vertex_execute l ;; Graph_step) w with
          | (Ok _, w') =>
              match Graph_function_loop fuel' w' with
              | Some (executed, out) => Some (l :: executed, out)
              | None => None
              end
          | (Raise e, w') => Some ([l], (Raise e, w'))
          end
      end
  end.

(** [Graph.function] *)
Definition Graph_function (fuel : nat) (w : World)
    : option (list loc * (Res (list (string * Value)) * World)) :=
  match Graph_function_loop fuel w with
  | Some (executed, (Ok _, w')) => Some (executed, get_output w')
  | Some (executed, (Raise e, w')) => Some (executed, (Raise e, w'))
  | None => None
  end.

(** [execute] on the graph itself: [Vertex.execute], inherited, with
    [Graph.function] as [self.function]. *)
Definition Graph_execute (fuel : nat) (w : World)
    : option (list loc * (Res unit * World)) :=
  match (Vertex_resolve_input GraphSelf ;;
         Vertex_resolve_input GraphSelf) w with
  | (Ok _, w1) =>
      match Graph_function fuel w1 with
      | Some (executed, (Ok output_data, w2)) =>
          Some (executed, Vertex_update_and_archive GraphSelf output_data w2)
      | Some (executed, (Raise e, w2)) => Some (executed, (Raise e, w2))
      | None => None
      end
  | (Raise e, w1) => Some ([], (Raise e, w1))
  end.

End Operations.

(** ** Vocabulary of the properties *)
Section Vocabulary.
Context `{mt : Methods}.

(** An assignment into a collection, [d[key] = value] or [d.key = value]. *)
Inductive assignment : Type :=
  | SetItem (key : pykey) (value : pyval)
  | SetAttr (key : string) (value : pyval).

Definition assigned_key (a : assignment) : pykey :=
  match a with
  | SetItem key _ => key
  | SetAttr key _ => Some key
  end.

Definition assigned_value (a : assignment) : pyval :=
  match a with
  | SetItem _ value => value
  | SetAttr _ value => value
  end.

Definition Vertices_assign (a : assignment) : M unit :=
  match a with
  | SetItem key value => Vertices_setitem key value
  | SetAttr key value => Vertices_setattr key value
  end.

Definition Edges_assign (a : assignment) : M unit :=
  match a with
  | SetItem key value => Edges_setitem key value
  | SetAttr key value => Edges_setattr key value
  end.

(** Calls made one after the other by a caller that goes on after an
    exception: the state each call leaves is the state the next one finds. *)
Definition run_each {A} (call : A → M unit) (xs : list A) (w : World)
    : World :=
  foldl (λ w x, (call x w).2) w xs.

(** The vertex objects stored in the [Vertices] collection. *)
Definition registered (w : World) (l : loc) : Prop :=
  l ∈ Dict.values (vertices w).

(** Every argument of a [set_flow_chain] call that is a vertex is a
    registered one. *)
Definition over_registered (w : World) (args : list pyval) : Prop :=
  ∀ l, PyObj l ∈ args → registered w l.

(** The collection holds no key twice, and every vertex in it bears the key
    it is stored under as its name. *)
Definition Vertices_synced (w : World) : Prop :=
  NoDup (vertices w).*1 ∧
  ∀ k l, (k, l) ∈ vertices w →
    ∃ v, heap w !! l = Some v ∧ vertex_name v = k.

(** The two conditions above as tests that compute. *)
Definition Vertices_synced_check (w : World) : bool :=
  bool_decide (NoDup (vertices w).*1) &&
  forallb (λ kl : pykey * loc,
             match heap w !! kl.2 with
             | Some v => bool_decide (vertex_name v = kl.1)
             | None => false
             end) (vertices w).

Definition over_registered_check (w : World) (args : list pyval) : bool :=
  forallb (λ x,
             match x with
             | PyObj l => bool_decide (l ∈ Dict.values (vertices w))
             | _ => true
             end) args.

(** Every registered vertex has a row under its key whose states are the
    vertex's declared states. *)
Definition rows_complete (w : World) : Prop :=
  ∀ k l v, (k, l) ∈ vertices w → heap w !! l = Some v →
    ∃ row : gmap string pykey,
      edges w !! k = Some row ∧
      dom row = list_to_set (possible_vertex_states v).

(** Every successor named in the row of a registered vertex is a key of the
    collection. *)
Definition successors_registered (w : World) : Prop :=
  ∀ k l (row : gmap string pykey) s next,
    (k, l) ∈ vertices w → edges w !! k = Some row →
    row !! s = Some (Some next) →
    is_Some (Dict.get (Some next) (vertices w)).

(** The rows [_initialize_edges] writes, vertex after vertex. *)
Definition initial_rows (h : gmap loc Vertex) (ls : list loc)
    (es : gmap pykey (gmap string pykey)) : gmap pykey (gmap string pykey) :=
  foldl (λ es l,
           match h !! l with
           | Some v =>
               <[vertex_name v := dead_end (possible_vertex_states v)]> es
           | None => es
           end) es ls.

(** What the control flow of a graph depends on: the collection, the table,
    and the name and reported state of every vertex. *)
Definition name_state (w : World) (l : loc) : option (pykey * string) :=
  (λ v, (vertex_name v, _vertex_state v)) <$> heap w !! l.

Definition same_flow (w w' : World) : Prop :=
  vertices w' = vertices w ∧ edges w' = edges w ∧
  ∀ l, name_state w' l = name_state w l.

(** Two worlds with the same collection and table, in which every vertex
    has kept its name and its declared states. *)
Definition same_wiring (w w' : World) : Prop :=
  vertices w' = vertices w ∧ edges w' = edges w ∧
  ∀ l v, heap w !! l = Some v →
    ∃ v', heap w' !! l = Some v' ∧ vertex_name v' = vertex_name v ∧
          possible_vertex_states v' = possible_vertex_states v.

(** What pushing outputs leaves alone: everything but the [output]
    attribute of the receiver. *)
Definition output_frame (w w' : World) : Prop :=
  vertices w' = vertices w ∧ edges w' = edges w ∧
  active_vertex w' = active_vertex w ∧
  ∀ A (f : Vertex → A), (∀ o v, f (with_output o v) = f v) →
    ∀ l, f <$> heap w' !! l = f <$> heap w !! l.

(** What [set_flow_chain] leaves alone: everything but the table. *)
Definition only_edges (w w' : World) : Prop :=
  w' = with_edges (edges w') w.

(** A linear chain: the row of [l], at the state [l] reports, names the
    vertex that follows it in the list; the last row gives no successor. *)
Fixpoint linear_chain (w : World) (l : loc) (rest : list loc) : bool :=
  match name_state w l with
  | Some (name, state) =>
      match edges w !! name with
      | Some row =>
          match row !! state, rest with
          | Some None, [] => true
          | Some (Some next), l' :: rest' =>
              bool_decide (Dict.get (Some next) (vertices w) = Some l')
              && linear_chain w l' rest'
          | _, _ => false
          end
      | None => false
      end
  | None => false
  end.

(** The first [n] turns of the loop of [Graph.function] run from [w], as
    far as the cursor is on a vertex: in each of them [execute] on the
    active vertex returns normally and leaves the collection, the table,
    every name and reported state and the cursor as they were; inputs and
    outputs are free to change.  The next turn starts in the state the
    turn of the loop, [execute] and then [step], ends in.  Nothing is asked
    of a vertex in a state the run does not go through. *)
Fixpoint normal_turns (n : nat) (w : World) : Prop :=
  match n, active_vertex w with
  | S n', Some l =>
      (Vertex_execute l w).1 = Ok tt ∧
      same_flow w (Vertex_execute l w).2 ∧
      active_vertex (Vertex_execute l w).2 = active_vertex w ∧
      normal_turns n' ((Vertex_execute l ;; Graph_step) w).2
  | _, _ => True
  end.

(** The iterations of the loop of [set_flow_chain] before index [n]. *)
Definition Edges_set_flow_chain_before (n : nat) (args : list pyval)
    : M unit :=
  for_each (take n (enumerate_from 0 (removelast args)))
           (set_flow_chain_body args).

(** The statements of [Graph.__init__] that set the graph up, down to
    [wire_data_flow]. *)
Definition Graph_init_set_up : M unit :=
  modify (λ w,
    {| heap := heap w;
       self_vertex := Vertex_init graph_input graph_output None;
       vertices := [];
       edges := ∅;
       starting_vertex := None;
       restarting_vertex := None;
       active_vertex := active_vertex w;
       warnings := warnings w |}) ;;
  set_vertices ;;
  Graph_initialize_edges ;;
  set_edges ;;
  wire_data_flow.

End Vocabulary.

(** ** Further vocabulary *)
Section MoreVocabulary.
Context `{mt : Methods}.

(** [isinstance(value, str)] *)
Definition isinstance_str (value : pyval) : bool :=
  match value with PyStr _ => true | _ => false end.

(** The [vertex_state] property. *)
Definition Vertex_vertex_state (self : receiver) : M string :=
  v <- deref self ;; ret (_vertex_state v).

(** The pushes of [update_and_archive] on one [Output], item after item, up
    to the first that raises. *)
Fixpoint push_all (o : Output) (output_data : list (string * Value))
    : Res unit * Output :=
  match output_data with
  | [] => (Ok tt, o)
  | item :: rest =>
      match push o item.1 item.2 with
      | Ok o' => push_all o' rest
      | Raise e => (Raise e, o)
      end
  end.

(** A call of one of the methods of [graph.py] that do not run a vertex
    function. *)
Inductive api_call : Type :=
  | SetVertexState (self : receiver) (new_state : string)
  | UpdateAndArchive (self : receiver) (output_data : list (string * Value))
  | VerticesAssign (a : assignment)
  | EdgesAssign (a : assignment)
  | EdgesInitialize (vertex : loc)
  | SetFlowChain (args : list pyval)
  | InitializeEdges
  | Step
  | Reset.

Definition run_api (c : api_call) : M unit :=
  match c with
  | SetVertexState self new_state => Vertex_set_vertex_state self new_state
  | UpdateAndArchive self output_data =>
      Vertex_update_and_archive self output_data
  | VerticesAssign a => Vertices_assign a
  | EdgesAssign a => Edges_assign a
  | EdgesInitialize vertex => Edges_initialize vertex
  | SetFlowChain args => Edges_set_flow_chain args
  | InitializeEdges => Graph_initialize_edges
  | Step => Graph_step
  | Reset => Graph_reset
  end.

(** A computation keeps a relation between the state it finds and the state
    it leaves, whether it returns or raises. *)
Definition keeps {A} (R : World → World → Prop) (c : M A) : Prop :=
  ∀ w, R w (c w).2.

(** The reported state of every object is one of its declared states. *)
Definition state_declared (v : Vertex) : Prop :=
  _vertex_state v ∈ possible_vertex_states v.

Definition states_declared (w : World) : Prop :=
  state_declared (self_vertex w) ∧
  ∀ l v, heap w !! l = Some v → state_declared v.

(** What the methods leave of an object: its input, clock and declared
    states as they were, and its reported state as it was or among the
    declared ones. *)
Definition object_kept (v v' : Vertex) : Prop :=
  input v' = input v ∧ clock v' = clock v ∧
  possible_vertex_states v' = possible_vertex_states v ∧
  (_vertex_state v' = _vertex_state v ∨
   _vertex_state v' ∈ possible_vertex_states v).

Definition objects_kept (w w' : World) : Prop :=
  object_kept (self_vertex w) (self_vertex w') ∧
  ∀ l, match heap w !! l with
       | Some v => ∃ v', heap w' !! l = Some v' ∧ object_kept v v'
       | None => heap w' !! l = None
       end.

(** What [set_flow_chain] does to the table at most: no row appears or
    disappears, and no entry of a row disappears. *)
Definition table_grows (w w' : World) : Prop :=
  only_edges w w' ∧
  dom (edges w') = dom (edges w) ∧
  ∀ k (row : gmap string pykey), edges w !! k = Some row →
    ∃ row' : gmap string pykey, edges w' !! k = Some row' ∧ dom row ⊆ dom row'.

(** Every reference in the collection and the cursor is to an object. *)
Definition closed (w : World) : Prop :=
  (∀ l, registered w l → is_Some (heap w !! l)) ∧
  (∀ l, active_vertex w = Some l → is_Some (heap w !! l)).

(** [step] from [l] leads to [l']. *)
Definition follows (w : World) (l l' : loc) : bool :=
  match name_state w l with
  | Some (name, state) =>
      match edges w !! name with
      | Some row =>
          match row !! state with
          | Some (Some next) =>
              bool_decide (Dict.get (Some next) (vertices w) = Some l')
          | _ => false
          end
      | None => false
      end
  | None => false
  end.

(** Storing objects in [Vertices] one after the other. *)
Definition Vertices_store (items : list (pykey * loc)) (w : World) : World :=
  run_each (λ item : pykey * loc, Vertices_setitem item.1 (PyObj item.2))
    items w.

End MoreVocabulary.

(** ** Concrete vertices and graphs *)
Module Example.

(** Channels and values without content. *)
Definition unit_io : IOTypes :=
  {| Input := unit; Output := unit; Kwargs := unit; Value := unit |}.

#[local] Existing Instance unit_io.

(** Vertices whose function returns an empty dictionary, in a graph whose
    abstract methods do nothing. *)
Definition idle : Methods :=
  {| resolve := λ _ _, Ok tt;
     push := λ o _ _, Ok o;
     function := λ _ _, ret [];
     graph_input := tt;
     graph_output := tt;
     set_vertices := ret tt;
     set_edges := ret tt;
     wire_data_flow := ret tt;
     get_output := ret [] |}.

(** The same vertices in a graph that registers the objects 1 and 2 as [a]
    and [b] and chains them, but names no starting vertex. *)
Definition unstarted : Methods :=
  {| resolve := λ _ _, Ok tt;
     push := λ o _ _, Ok o;
     function := λ _ _, ret [];
     graph_input := tt;
     graph_output := tt;
     set_vertices :=
       Vertices_setattr "a" (PyObj 1%positive) ;;
       Vertices_setattr "b" (PyObj 2%positive);
     set_edges := Edges_set_flow_chain [PyObj 1%positive; PyObj 2%positive];
     wire_data_flow := ret tt;
     get_output := ret [] |}.

(** [Vertex()], and a vertex of a subclass whose constructor declares the
    two states of a decision. *)
Definition plain : Vertex := Vertex_init tt tt None.
Definition decision : Vertex :=
  with_possible_vertex_states ["true"; "false"]%string plain.

(** An object before [Graph.__init__], with the vertex objects in [h]. *)
Definition blank (h : gmap loc Vertex) : World :=
  {| heap := h;
     self_vertex := plain;
     vertices := [];
     edges := ∅;
     starting_vertex := None;
     restarting_vertex := None;
     active_vertex := None;
     warnings := [] |}.

(** Two plain vertices: registered as [a] and [b]; with their rows
    initialised; chained [a -> b] with the cursor on [a]. *)
Definition two_registered : World :=
  ((Vertices_setattr "a" (PyObj 1%positive) ;;
    Vertices_setattr "b" (PyObj 2%positive))
     (blank {[ 1%positive := plain; 2%positive := plain ]})).2.

Definition two_initialized : World :=
  (Graph_initialize_edges two_registered).2.

Definition two_chain : World :=
  with_active_vertex (Some 1%positive)
    (Edges_set_flow_chain [PyObj 1%positive; PyObj 2%positive]
       two_initialized).2.

(** A plain vertex stored as [a] and then as [b], and a decision vertex
    stored as [b] after it; then [_initialize_edges]. *)
Definition shadowed_registered : World :=
  ((Vertices_setattr "a" (PyObj 1%positive) ;;
    Vertices_setattr "b" (PyObj 1%positive) ;;
    Vertices_setattr "b" (PyObj 2%positive))
     (blank {[ 1%positive := plain; 2%positive := decision ]})).2.

Definition shadowed : World :=
  (Graph_initialize_edges shadowed_registered).2.

(** Two plain vertices registered as [a] and [b] and initialised, next to a
    third vertex object, created as [Vertex(vertex_name="a")] with the one
    state [x] and stored nowhere, which is then given to [set_flow_chain]. *)
Definition namesake : Vertex :=
  with_possible_vertex_states ["x"]%string
    (Vertex_init tt tt (Some "a"%string)).

Definition namesake_registered : World :=
  ((Vertices_setattr "a" (PyObj 1%positive) ;;
    Vertices_setattr "b" (PyObj 2%positive))
     (blank {[ 1%positive := plain; 2%positive := plain;
               3%positive := namesake ]})).2.

Definition namesake_wired : World :=
  (Edges_set_flow_chain [PyObj 3%positive; PyStr "x"; PyObj 2%positive]
     (Graph_initialize_edges namesake_registered).2).2.

(** A decision vertex [check] and a plain vertex [done], wired
    [check -true-> done], with the cursor on [check], which has not reported
    a state yet. *)
Definition undecided_registered : World :=
  ((Vertices_setattr "check" (PyObj 1%positive) ;;
    Vertices_setattr "done" (PyObj 2%positive))
     (blank {[ 1%positive := decision; 2%positive := plain ]})).2.

Definition undecided_wiring : list (list pyval) :=
  [[PyObj 1%positive; PyStr "true"; PyObj 2%positive]].

Definition undecided : World :=
  with_active_vertex (Some 1%positive)
    (run_each Edges_set_flow_chain undecided_wiring
       (Graph_initialize_edges undecided_registered).2).

End Example.

(** ** Further concrete vertices and graphs *)
Module Scenario.
Import Example.

Section UnitChannels.
#[local] Existing Instance unit_io.

(** The graph of [Example.unstarted], with a [wire_data_flow] that names the
    object 1 as starting vertex. *)
Definition started : @Methods unit_io :=
  {| resolve := λ _ _, Ok tt;
     push := λ o _ _, Ok o;
     function := λ _ _, ret [];
     graph_input := tt;
     graph_output := tt;
     set_vertices :=
       Vertices_setattr "a" (PyObj 1%positive) ;;
       Vertices_setattr "b" (PyObj 2%positive);
     set_edges := Edges_set_flow_chain [PyObj 1%positive; PyObj 2%positive];
     wire_data_flow :=
       modify (λ w,
         {| heap := heap w; self_vertex := self_vertex w;
            vertices := vertices w; edges := edges w;
            starting_vertex := Some 1%positive;
            restarting_vertex := restarting_vertex w;
            active_vertex := active_vertex w; warnings := warnings w |});
     get_output := ret [] |}.

End UnitChannels.

(** Inputs that resolve or do not, and outputs that count the pushes on
    their one channel [energy]. *)
Definition counting_io : IOTypes :=
  {| Input := bool; Output := nat; Kwargs := unit; Value := unit |}.

Section CountingChannels.
#[local] Existing Instance counting_io.

(** In the order of the fields of [Methods]: [resolve] raises [KeyError] on
    an input that does not resolve; [push] counts on the channel [energy] and
    raises [AttributeError] on any other; every vertex function returns one
    value for [energy]; the graph's abstract methods do nothing. *)
Definition counting : @Methods counting_io :=
  @Build_Methods counting_io
    (λ (i : bool) _, if i then Ok tt else Raise KeyError)
    (λ (o : nat) key _,
       if decide (key = "energy"%string) then Ok (S o)
       else Raise AttributeError)
    (λ _ _, ret [("energy"%string, tt)])
    true 0%nat (ret tt) (ret tt) (ret tt) (ret []).

(** A vertex whose input resolves, and one whose input does not. *)
Definition counters : @World counting_io :=
  {| heap :=
       {[ 1%positive :=
            Vertex_init true 0%nat (Some "a"%string);
          2%positive :=
            Vertex_init false 0%nat (Some "b"%string) ]};
     self_vertex := Vertex_init true 0%nat None;
     vertices := [];
     edges := ∅;
     starting_vertex := None;
     restarting_vertex := None;
     active_vertex := None;
     warnings := [] |}.

End CountingChannels.

(** Inputs that need nothing, or read the channel [energy] of another
    vertex; outputs that count the pushes on that channel. *)
Definition piped_io : IOTypes :=
  {| Input := option loc; Output := nat; Kwargs := unit; Value := unit |}.

Section PipedChannels.
#[local] Existing Instance piped_io.

(** In the order of the fields of [Methods]: [resolve] of an input that
    reads another vertex raises [KeyError] as long as nothing has been pushed
    there, [ReferenceError] when the vertex is gone; [push] counts on the
    channel [energy] and raises [AttributeError] on any other; every vertex
    function returns one value for [energy]; the graph's abstract methods do
    nothing. *)
Definition piped : @Methods piped_io :=
  @Build_Methods piped_io
    (λ (i : option loc) (w : @World piped_io),
       match i with
       | None => Ok tt
       | Some source =>
           match heap w !! source with
           | Some v =>
               match output v with
               | O => Raise KeyError
               | S _ => Ok tt
               end
           | None => Raise ReferenceError
           end
       end)
    (λ (o : nat) key _,
       if decide (key = "energy"%string) then Ok (S o)
       else Raise AttributeError)
    (λ _ _, ret [("energy"%string, tt)])
    None 0%nat (ret tt) (ret tt) (ret tt) (ret []).

(** The vertex [a] needs no input, the vertex [b] reads what [a] has
    pushed; both registered, their rows initialised. *)
Definition pipe_initialized : @World piped_io :=
  ((Vertices_setattr "a" (PyObj 1%positive) ;;
    Vertices_setattr "b" (PyObj 2%positive) ;;
    Graph_initialize_edges)
     {| heap :=
          {[ 1%positive := Vertex_init None 0%nat None;
             2%positive := Vertex_init (Some 1%positive) 0%nat None ]};
        self_vertex := Vertex_init None 0%nat None;
        vertices := [];
        edges := ∅;
        starting_vertex := None;
        restarting_vertex := None;
        active_vertex := None;
        warnings := [] |}).2.

(** Chained [a -> b], and chained [a -> b -> a], the cursor on [a]. *)
Definition pipe_chain : @World piped_io :=
  with_active_vertex (Some 1%positive)
    (Edges_set_flow_chain [PyObj 1%positive; PyObj 2%positive]
       pipe_initialized).2.

Definition pipe_cycle : @World piped_io :=
  with_active_vertex (Some 1%positive)
    (Edges_set_flow_chain
       [PyObj 1%positive; PyObj 2%positive; PyObj 1%positive]
       pipe_initialized).2.

End PipedChannels.

End Scenario.

(** * Facts about dictionaries *)
Section DictFacts.
Context {V : Type}.
Implicit Types (k : pykey) (v : V) (d : list (pykey * V)).

Lemma Dict_get_set_eq k v d : Dict.get k (Dict.set k v d) = Some v.
Proof.
  induction d as [|[k' v'] d IH]; simpl.
  - by rewrite decide_True.
  - destruct (decide (k = k')) as [->|Hne]; simpl.
    + by rewrite decide_True.
    + by rewrite decide_False.
Qed.

Lemma Dict_get_set_ne k k' v d :
  k ≠ k' → Dict.get k' (Dict.set k v d) = Dict.get k' d.
Proof.
  intros Hne. induction d as [|[k0 v0] d IH]; simpl.
  - rewrite decide_False; [done | congruence].
  - destruct (decide (k = k0)) as [->|Hne0]; simpl.
    + rewrite !decide_False; [done | congruence | congruence].
    + by rewrite IH.
Qed.

Lemma Dict_get_Some_elem k v d : Dict.get k d = Some v → (k, v) ∈ d.
Proof.
  induction d as [|[k' v'] d IH]; simpl; [done|].
  case_decide.
  - intros [= ->]. subst. left.
  - intros. right. auto.
Qed.

Lemma Dict_elem_get k v d : (k, v) ∈ d → is_Some (Dict.get k d).
Proof.
  induction d as [|[k' v'] d IH]; [by intros ?%not_elem_of_nil|].
  intros Hin. simpl. case_decide; [by eexists|].
  apply IH. apply elem_of_cons in Hin as [[= -> ->]|Hin]; [done|done].
Qed.

Lemma Dict_elem_values k v d : (k, v) ∈ d → v ∈ Dict.values d.
Proof.
  intros Hin. unfold Dict.values. apply list_elem_of_fmap.
  by exists (k, v).
Qed.

Lemma Dict_values_elem v d : v ∈ Dict.values d → ∃ k, (k, v) ∈ d.
Proof.
  unfold Dict.values. intros ([k v'] & -> & Hin)%list_elem_of_fmap.
  by exists k.
Qed.

Lemma Dict_NoDup_elem_eq k v v' d :
  NoDup d.*1 → (k, v) ∈ d → (k, v') ∈ d → v = v'.
Proof.
  induction d as [|[k0 v0] d IH]; [by intros _ ?%not_elem_of_nil|].
  rewrite fmap_cons, NoDup_cons. simpl. intros [Hnotin Hnd] H1 H2.
  apply elem_of_cons in H1 as [H1|H1], H2 as [H2|H2].
  - congruence.
  - exfalso. apply Hnotin. injection H1 as -> ->.
    apply list_elem_of_fmap. by exists (k0, v').
  - exfalso. apply Hnotin. injection H2 as -> ->.
    apply list_elem_of_fmap. by exists (k0, v).
  - by apply IH.
Qed.

Lemma Dict_set_elem k v k' v' d :
  (k', v') ∈ Dict.set k v d → (k' = k ∧ v' = v) ∨ (k', v') ∈ d.
Proof.
  induction d as [|[k0 v0] d IH]; simpl.
  - intros [[= -> ->]|Hin]%elem_of_cons; [by left|by right].
  - destruct (decide (k = k0)) as [->|Hne].
    + intros [[= -> ->]|Hin]%elem_of_cons; [by left|].
      right. by right.
    + intros [[= -> ->]|Hin]%elem_of_cons; [right; left|].
      destruct (IH Hin) as [?|?]; [by left|]. right. by right.
Qed.

Lemma Dict_set_keys k v d :
  (Dict.set k v d).*1 = if decide (k ∈ d.*1) then d.*1 else d.*1 ++ [k].
Proof.
  induction d as [|[k0 v0] d IH]; [done|].
  cbn [Dict.set]. destruct (decide (k = k0)) as [->|Hne];
    rewrite !fmap_cons; cbn [fst].
  - rewrite decide_True; [done|left].
  - rewrite IH. destruct (decide (k ∈ d.*1)) as [Hin|Hnotin].
    + rewrite decide_True; [done|by right].
    + rewrite decide_False; [done|].
      intros [?|?]%elem_of_cons; congruence.
Qed.

Lemma Dict_set_NoDup k v d : NoDup d.*1 → NoDup (Dict.set k v d).*1.
Proof.
  intros Hnd. rewrite Dict_set_keys. case_decide; [done|].
  apply NoDup_app. split; [done|]. split; [|apply NoDup_singleton].
  intros k' Hin ->%list_elem_of_singleton. done.
Qed.

End DictFacts.

(** * Facts about the methods *)
Section Facts.
Context `{mt : Methods}.
Implicit Types (w : World) (v : Vertex) (l : loc) (k key : pykey).

Ltac munfold :=
  unfold bind, ret, raise, gets, modify, lift, warn, deref, mutate.

(** ** Record updates *)

Lemma with_edges_id w : with_edges (edges w) w = w.
Proof. by destruct w. Qed.

(** ** Loops *)

Lemma for_each_cons {A} (x : A) (xs : list A) (body : A → M unit) w :
  for_each (x :: xs) body w =
  match body x w with
  | (Ok _, w') => for_each xs body w'
  | (Raise e, w') => (Raise e, w')
  end.
Proof. done. Qed.

Lemma for_each_app {A} (xs ys : list A) (body : A → M unit) w :
  for_each (xs ++ ys) body w = (for_each xs body ;; for_each ys body) w.
Proof.
  revert w. induction xs as [|x xs IH]; intros w; simpl; [done|].
  unfold bind in *. destruct (body x w) as [[[]|e] w']; [|done].
  apply IH.
Qed.

Lemma enumerate_from_lookup {A} (xs : list A) (n i : nat) :
  enumerate_from n xs !! i = (λ x, ((n + i)%nat, x)) <$> xs !! i.
Proof.
  revert n i. induction xs as [|x xs IH]; intros n i; [done|].
  destruct i as [|i]; simpl.
  - by rewrite Nat.add_0_r.
  - rewrite IH. by rewrite Nat.add_succ_comm.
Qed.

Lemma removelast_lookup {A} (xs : list A) (i : nat) :
  (i + 1 < length xs)%nat → removelast xs !! i = xs !! i.
Proof.
  intros Hlt. rewrite removelast_firstn_len.
  change (@firstn A) with (@take A).
  apply lookup_take_lt. lia.
Qed.

(** ** Vertices *)

Lemma Vertices_setitem_vertex key l v w :
  heap w !! l = Some v →
  Vertices_setitem key (PyObj l) w =
    (Ok tt,
     with_vertices (Dict.set key l (vertices w))
       (with_heap (<[l := with_vertex_name key v]> (heap w)) w)).
Proof. intros Hl. unfold Vertices_setitem. munfold. simpl. by rewrite Hl. Qed.

Lemma Vertices_assign_keeps_name (a : assignment) w l k :
  vertex_name <$> heap w !! l = Some k →
  (assigned_value a = PyObj l → assigned_key a = k) →
  vertex_name <$> heap (Vertices_assign a w).2 !! l = Some k.
Proof.
  intros Hname Hkey.
  assert (∀ key value, (value = PyObj l → key = k) →
            vertex_name <$> heap (Vertices_setitem key value w).2 !! l
            = Some k) as Hitem.
  { intros key value Hk. destruct value as [| | |l0]; try done.
    unfold Vertices_setitem. munfold. simpl.
    destruct (heap w !! l0) as [v0|] eqn:Hl0; simpl; [|done].
    destruct (decide (l0 = l)) as [->|Hne].
    - rewrite lookup_insert_eq. simpl. f_equal. by apply Hk.
    - by rewrite lookup_insert_ne. }
  destruct a as [key value|key value]; simpl in *; by apply Hitem.
Qed.

(** Storing a vertex object that the collection does not hold yet keeps
    the collection synchronised: this is how [set_vertices] fills it. *)
Lemma Vertices_setitem_synced key l v w :
  Vertices_synced w → heap w !! l = Some v → ¬ registered w l →
  Vertices_synced (Vertices_setitem key (PyObj l) w).2.
Proof.
  intros [Hnd Hsync] Hl Hnew.
  rewrite (Vertices_setitem_vertex key l v) by done. split; simpl.
  - by apply Dict_set_NoDup.
  - intros k0 l0 [[-> ->]|Hin]%Dict_set_elem.
    + eexists. by rewrite lookup_insert_eq.
    + destruct (Hsync k0 l0 Hin) as (v0 & Hl0 & Hname).
      exists v0. split; [|done]. rewrite lookup_insert_ne; [done|].
      intros ->. apply Hnew. by eapply Dict_elem_values.
Qed.

(** ** The [vertex_state] setter *)

Lemma Vertex_init_state_declared (input0 : Input) (output0 : Output) name :
  _vertex_state (Vertex_init input0 output0 name)
  ∈ possible_vertex_states (Vertex_init input0 output0 name).
Proof. simpl. left. Qed.

(** The setter admits exactly the declared states; refused, it changes
    nothing. *)
Lemma Vertex_set_vertex_state_child l v (new_state : string) w :
  heap w !! l = Some v →
  Vertex_set_vertex_state (Child l) new_state w =
    if decide (new_state ∈ possible_vertex_states v)
    then (Ok tt, with_heap (<[l := with_vertex_state new_state v]> (heap w)) w)
    else (Raise ValueError, w).
Proof.
  intros Hl. unfold Vertex_set_vertex_state. munfold. simpl. rewrite Hl.
  destruct (decide (new_state ∈ possible_vertex_states v)).
  - rewrite decide_False by (by intros ?). by rewrite Hl.
  - by rewrite decide_True.
Qed.

(** ** C3 *)

(** C3: inserting the vertex object [l] into the [Vertices] collection,
    by item or by attribute assignment, succeeds and sets the object's
    [vertex_name] to the key; whatever is inserted afterwards, the name read
    from the object is still that key, as long as the object itself is not
    inserted again under another key. *)
Theorem C3_insertion_names_vertex
    (w : World) (l : loc) (v : Vertex) (a : assignment)
    (later : list assignment) :
  heap w !! l = Some v →
  assigned_value a = PyObj l →
  Forall (λ b, assigned_value b = PyObj l →
               assigned_key b = assigned_key a) later →
  (Vertices_assign a w).1 = Ok tt ∧
  Dict.get (assigned_key a) (vertices (Vertices_assign a w).2) = Some l ∧
  vertex_name <$> heap (Vertices_assign a w).2 !! l
    = Some (assigned_key a) ∧
  vertex_name <$> heap (run_each Vertices_assign later (Vertices_assign a w).2) !! l
    = Some (assigned_key a).
Proof.
  intros Hl Hval Hlater.
  assert (Vertices_assign a w = Vertices_setitem (assigned_key a) (PyObj l) w)
    as ->.
  { destruct a; simpl in *; by subst. }
  rewrite (Vertices_setitem_vertex _ _ v) by done. simpl.
  split; [done|]. split; [apply Dict_get_set_eq|].
  assert (∀ w', vertex_name <$> heap w' !! l = Some (assigned_key a) →
            vertex_name <$> heap (run_each Vertices_assign later w') !! l
            = Some (assigned_key a)) as Hrun.
  { induction Hlater as [|b later Hb _ IH]; intros w' Hw'; [done|].
    simpl. apply IH. by apply Vertices_assign_keeps_name. }
  assert (vertex_name <$>
            (<[l := with_vertex_name (assigned_key a) v]> (heap w)) !! l
          = Some (assigned_key a)) as Hnow.
  { by rewrite lookup_insert_eq. }
  split; [done|]. by apply Hrun.
Qed.

(** ** C8 *)

(** C8: handing a value that is not a [Vertex] to [Vertices.__setitem__] or
    to [Edges.__setitem__], directly or by attribute assignment, under any
    key, raises [TypeError] and changes nothing. *)
Theorem C8_non_vertex_rejected (key : pykey) (x : pyval) (w : World) :
  isinstance_Vertex x = false →
  Vertices_setitem key x w = (Raise TypeError, w) ∧
  Edges_setitem key x w = (Raise TypeError, w) ∧
  ∀ a, assigned_value a = x →
    Vertices_assign a w = (Raise TypeError, w) ∧
    Edges_assign a w = (Raise TypeError, w).
Proof.
  intros Hx. destruct x; try discriminate; repeat split;
    destruct a; simpl in *; subst; reflexivity.
Qed.

(** ** C10 *)

Lemma dead_end_lookup (states : list string) (s : string) :
  dead_end states !! s = if decide (s ∈ states) then Some None else None.
Proof.
  induction states as [|s0 states IH].
  - done.
  - change (dead_end (s0 :: states))
      with (<[s0 := None]> (dead_end states) : gmap string pykey).
    destruct (decide (s0 = s)) as [->|Hne].
    + rewrite lookup_insert_eq. rewrite decide_True; [done|left].
    + rewrite lookup_insert_ne by done. rewrite IH.
      destruct (decide (s ∈ states)).
      * rewrite decide_True; [done|by right].
      * rewrite decide_False; [done|].
        intros [?|?]%elem_of_cons; congruence.
Qed.

Lemma dead_end_dom (states : list string) :
  dom (dead_end states) = list_to_set states.
Proof.
  apply set_eq. intros s. rewrite elem_of_dom, dead_end_lookup.
  rewrite elem_of_list_to_set. case_decide; split; try done.
Qed.

Lemma Edges_setitem_vertex l v w :
  heap w !! l = Some v →
  Edges_setitem (vertex_name v) (PyObj l) w =
    (Ok tt,
     with_edges
       (<[vertex_name v := dead_end (possible_vertex_states v)]> (edges w))
       w).
Proof.
  intros Hl. unfold Edges_setitem. munfold. simpl. rewrite Hl.
  by rewrite decide_False by (intros Hne; by apply Hne).
Qed.

Lemma Edges_initialize_vertex l v w :
  heap w !! l = Some v →
  Edges_initialize l w =
    (Ok tt,
     with_edges
       (<[vertex_name v := dead_end (possible_vertex_states v)]> (edges w))
       w).
Proof.
  intros Hl. unfold Edges_initialize.
  unfold bind at 1. unfold deref. rewrite Hl.
  by apply Edges_setitem_vertex.
Qed.

(** C10: establishing the row of a vertex again, through
    [Edges.__setitem__] under the vertex's name or through
    [Edges.initialize], succeeds and replaces the row the table had for it,
    whatever successors it held, by the row that maps each declared state of
    the vertex to [None]; the other rows are untouched. *)
Theorem C10_reinsertion_resets_row
    (w : World) (l : loc) (v : Vertex) (old_row : gmap string pykey) :
  heap w !! l = Some v →
  edges w !! vertex_name v = Some old_row →
  ∃ w',
    Edges_setitem (vertex_name v) (PyObj l) w = (Ok tt, w') ∧
    Edges_initialize l w = (Ok tt, w') ∧
    w' = with_edges (edges w') w ∧
    edges w' !! vertex_name v = Some (dead_end (possible_vertex_states v)) ∧
    (∀ s, dead_end (possible_vertex_states v) !! s =
            if decide (s ∈ possible_vertex_states v)
            then Some None else None) ∧
    (∀ k, k ≠ vertex_name v → edges w' !! k = edges w !! k).
Proof.
  intros Hl _. eexists. split; [by apply Edges_setitem_vertex|].
  split; [by apply Edges_initialize_vertex|].
  split; [by destruct w|]. simpl.
  split; [by rewrite lookup_insert_eq|].
  split; [intros s; apply dead_end_lookup|].
  intros k Hk. by rewrite lookup_insert_ne.
Qed.

(** ** C4 *)

(** C4: [reset()] with a cursor set raises [ValueError] and leaves the whole
    state as it was; with an empty cursor it returns normally with the cursor
    at [restarting_vertex], having changed nothing else but the log, which
    gains a warning when there is no restarting vertex. *)
Theorem C4_reset_needs_empty_cursor (w : World) :
  match active_vertex w with
  | Some _ => Graph_reset w = (Raise ValueError, w)
  | None =>
      ∃ w',
        Graph_reset w = (Ok tt, w') ∧
        active_vertex w' = restarting_vertex w ∧
        w' = with_active_vertex (restarting_vertex w)
               (with_warnings (warnings w') w) ∧
        warnings w' =
          match restarting_vertex w with
          | Some _ => warnings w
          | None =>
              warnings w ++ [NoRestartingVertex (vertex_name (self_vertex w))]
          end
  end.
Proof.
  unfold Graph_reset. munfold. simpl.
  destruct (active_vertex w) eqn:Hactive; [done|].
  destruct (restarting_vertex w) eqn:Hrestart; simpl;
    eexists; (split; [reflexivity|]); simpl; repeat split;
    destruct w; simpl in *; by subst.
Qed.

(** ** C5 *)

Lemma output_frame_refl w : output_frame w w.
Proof. by repeat split. Qed.

Lemma output_frame_trans w1 w2 w3 :
  output_frame w1 w2 → output_frame w2 w3 → output_frame w1 w3.
Proof.
  intros (Hv & He & Ha & Hh) (Hv' & He' & Ha' & Hh').
  repeat split; try congruence.
  intros A f Hf l. rewrite Hh' by done. by apply Hh.
Qed.

Lemma push_item_frame (self : receiver) (item : string * Value) w :
  output_frame w
    ((v <- deref self ;;
      match push (output v) item.1 item.2 with
      | Ok o => mutate self (with_output o)
      | Raise e => raise e
      end) w).2.
Proof.
  munfold. destruct self as [l0|].
  - destruct (heap w !! l0) as [v0|] eqn:Hl0; [|apply output_frame_refl].
    destruct (push (output v0) item.1 item.2) as [o|e];
      [|apply output_frame_refl].
    rewrite Hl0. simpl. repeat split; try done.
    intros A f Hf l. simpl. destruct (decide (l0 = l)) as [->|Hne].
    + rewrite lookup_insert_eq, Hl0. simpl. by rewrite Hf.
    + by rewrite lookup_insert_ne.
  - destruct (push (output (self_vertex w)) item.1 item.2) as [o|e];
      by repeat split.
Qed.

Lemma Vertex_update_and_archive_frame (self : receiver)
    (output_data : list (string * Value)) w :
  output_frame w (Vertex_update_and_archive self output_data w).2.
Proof.
  revert w. unfold Vertex_update_and_archive.
  induction output_data as [|item output_data IH]; intros w.
  { apply output_frame_refl. }
  simpl. unfold bind at 1.
  pose proof (push_item_frame self item w) as Hstep.
  destruct ((v <- deref self ;;
             match push (output v) item.1 item.2 with
             | Ok o => mutate self (with_output o)
             | Raise e => raise e
             end) w) as [[[]|e] w1]; simpl in *; [|done].
  eapply output_frame_trans; [exact Hstep|apply IH].
Qed.

(** C5 as the code has it: [execute()] resolves the input, calls the
    vertex's function and pushes the output, and does nothing to any clock:
    after it, every vertex's clock is what the vertex's function left, or
    what it was when the input did not resolve. *)
Theorem C5_execute_leaves_clock (l : loc) (w : World) (l' : loc) :
  clock <$> heap (Vertex_execute l w).2 !! l' =
  match Vertex_resolve_input (Child l) w with
  | (Ok kwargs, _) => clock <$> heap (function l kwargs w).2 !! l'
  | (Raise _, _) => clock <$> heap w !! l'
  end.
Proof.
  unfold Vertex_execute, Vertex_resolve_input. munfold. simpl.
  destruct (heap w !! l) as [v|] eqn:Hl; simpl; [|done].
  destruct (resolve (input v) w) as [kwargs|e] eqn:Hres; simpl; [|done].
  rewrite Hl. simpl. rewrite Hres.
  destruct (function l kwargs w) as [[output_data|e] w1]; simpl; [|done].
  destruct (Vertex_update_and_archive_frame (Child l) output_data w1)
    as (_ & _ & _ & Hheap).
  by apply Hheap.
Qed.

(** ** C7 *)

Lemma Graph_init_unfold w :
  Graph_init w =
  (Graph_init_set_up ;;
   start <- gets starting_vertex ;;
   match start with
   | None =>
       v <- deref GraphSelf ;; warn (StartingVertexNotSet (vertex_name v))
   | Some _ => ret tt
   end ;;
   start <- gets starting_vertex ;;
   modify (with_active_vertex start)) w.
Proof.
  unfold Graph_init, Graph_init_set_up, bind. simpl.
  repeat (match goal with
          | |- context [match ?c with (_, _) => _ end] =>
              lazymatch c with
              | (_, _) => fail
              | _ => destruct c as [[[]|?] ?]
              end
          end; simpl; try done).
Qed.

Lemma Graph_function_empty_cursor (fuel : nat) w :
  active_vertex w = None →
  Graph_function_loop fuel w = Some ([], (Ok tt, w)) ∧
  Graph_function fuel w = Some ([], get_output w).
Proof.
  intros Hnone. unfold Graph_function.
  assert (Graph_function_loop fuel w = Some ([], (Ok tt, w))) as ->.
  { destruct fuel; simpl; by rewrite Hnone. }
  done.
Qed.

(** C7: when the set-up part of [Graph.__init__] returns with no starting
    vertex, [__init__] returns normally; all it adds is one warning in the
    log and an empty cursor.  On the graph so constructed, whatever the
    fuel, the loop of [function] runs no child vertex and [function] is
    [get_output] alone, and [execute()] runs no child vertex either. *)
Theorem C7_no_starting_vertex (w0 w1 : World) :
  Graph_init_set_up w0 = (Ok tt, w1) →
  starting_vertex w1 = None →
  let w2 :=
    with_active_vertex None
      (with_warnings
         (warnings w1 ++ [StartingVertexNotSet (vertex_name (self_vertex w1))])
         w1) in
  Graph_init w0 = (Ok tt, w2) ∧
  active_vertex w2 = None ∧
  ∀ fuel,
    Graph_function_loop fuel w2 = Some ([], (Ok tt, w2)) ∧
    Graph_function fuel w2 = Some ([], get_output w2) ∧
    ∃ outcome, Graph_execute fuel w2 = Some ([], outcome).
Proof.
  intros Hsetup Hstart w2. split.
  { rewrite Graph_init_unfold. unfold bind at 1. rewrite Hsetup.
    munfold. simpl. rewrite Hstart. simpl. by rewrite Hstart. }
  split; [done|]. intros fuel.
  destruct (Graph_function_empty_cursor fuel w2) as [Hloop Hfun]; [done|].
  split; [done|]. split; [done|].
  unfold Graph_execute, Vertex_resolve_input. munfold. simpl.
  destruct (resolve _ w2) as [kwargs|e]; [|by eauto].
  rewrite Hfun. destruct (get_output w2) as [[output_data|e] w3]; by eauto.
Qed.

(** ** C6 *)

Lemma only_edges_refl w : only_edges w w.
Proof. unfold only_edges. by destruct w. Qed.

Lemma only_edges_trans w1 w2 w3 :
  only_edges w1 w2 → only_edges w2 w3 → only_edges w1 w3.
Proof.
  unfold only_edges. intros H12 H23. rewrite H23, H12. by destruct w1.
Qed.

Lemma only_edges_heap w w' : only_edges w w' → heap w' = heap w.
Proof. intros ->. done. Qed.

Lemma only_edges_vertices w w' : only_edges w w' → vertices w' = vertices w.
Proof. intros ->. done. Qed.

Lemma set_flow_chain_body_only_edges args item w :
  only_edges w (set_flow_chain_body args item w).2.
Proof.
  unfold set_flow_chain_body, set_flow_chain_edge, tuple_getitem,
    Edges_getitem. munfold.
  destruct item as [n vertex].
  repeat (case_match; simpl; try apply only_edges_refl);
    simplify_eq; simpl; try apply only_edges_refl.
  all: unfold only_edges; simpl; done.
Qed.

Lemma for_each_only_edges {A} (xs : list A) (body : A → M unit) w :
  (∀ x w, only_edges w (body x w).2) →
  only_edges w (for_each xs body w).2.
Proof.
  intros Hbody. revert w.
  induction xs as [|x xs IH]; intros w; simpl; [apply only_edges_refl|].
  unfold bind. pose proof (Hbody x w) as Hx.
  destruct (body x w) as [[[]|e] w']; simpl in *; [|done].
  eapply only_edges_trans; [exact Hx|apply IH].
Qed.

Lemma set_flow_chain_body_undeclared args (n : nat) l l' (s : string) v w :
  args !! n = Some (PyObj l) →
  args !! (n + 1)%nat = Some (PyStr s) →
  args !! (n + 2)%nat = Some (PyObj l') →
  heap w !! l = Some v →
  s ∉ possible_vertex_states v →
  set_flow_chain_body args (n, PyObj l) w = (Raise KeyError, w).
Proof.
  intros Hn Hn1 Hn2 Hl Hs.
  unfold set_flow_chain_body, set_flow_chain_edge, tuple_getitem.
  rewrite Hn1. munfold. simpl.
  rewrite Hn2. simpl. rewrite Hl. by rewrite decide_True.
Qed.

Lemma set_flow_chain_split args (n : nat) (x : pyval) w :
  args !! n = Some x →
  (n + 1 < length args)%nat →
  Edges_set_flow_chain args w =
    (Edges_set_flow_chain_before n args ;;
     set_flow_chain_body args (n, x) ;;
     for_each (drop (S n) (enumerate_from 0 (removelast args)))
              (set_flow_chain_body args)) w.
Proof.
  intros Hn Hlen. unfold Edges_set_flow_chain, Edges_set_flow_chain_before.
  assert (enumerate_from 0 (removelast args) !! n = Some (n, x)) as Hitem.
  { rewrite enumerate_from_lookup, removelast_lookup by done.
    by rewrite Hn. }
  rewrite <- (take_drop_middle _ _ _ Hitem) at 1.
  by rewrite for_each_app.
Qed.

(** C6: a call of [set_flow_chain] whose arguments hold, at some index, a
    vertex followed by a state string that the vertex does not declare and
    by the target vertex, never returns normally; when the requests before
    that index go through, what it raises is [KeyError], and it leaves the
    table as those earlier requests left it: the requested edge is not
    set. *)
Theorem C6_undeclared_state_rejected
    (args : list pyval) (n : nat) (l l' : loc) (s : string) (v : Vertex)
    (w : World) :
  args !! n = Some (PyObj l) →
  args !! (n + 1)%nat = Some (PyStr s) →
  args !! (n + 2)%nat = Some (PyObj l') →
  heap w !! l = Some v →
  s ∉ possible_vertex_states v →
  (∃ e w', Edges_set_flow_chain args w = (Raise e, w')) ∧
  (∀ w1, Edges_set_flow_chain_before n args w = (Ok tt, w1) →
         Edges_set_flow_chain args w = (Raise KeyError, w1)) ∧
  (n = 0%nat → Edges_set_flow_chain args w = (Raise KeyError, w)).
Proof.
  intros Hn Hn1 Hn2 Hl Hs.
  assert (n + 1 < length args)%nat as Hlen.
  { apply lookup_lt_Some in Hn2. lia. }
  assert (∀ w1, Edges_set_flow_chain_before n args w = (Ok tt, w1) →
            Edges_set_flow_chain args w = (Raise KeyError, w1)) as Hreach.
  { intros w1 Hbefore.
    rewrite (set_flow_chain_split _ n (PyObj l)) by done.
    unfold bind at 1. rewrite Hbefore. unfold bind at 1.
    rewrite (set_flow_chain_body_undeclared _ _ _ l' s v); try done.
    assert (only_edges w w1) as Hw1.
    { pose proof (for_each_only_edges
        (take n (enumerate_from 0 (removelast args)))
        (set_flow_chain_body args) w
        (set_flow_chain_body_only_edges args)) as Hframe.
      unfold Edges_set_flow_chain_before in Hbefore.
      by rewrite Hbefore in Hframe. }
    by rewrite (only_edges_heap _ _ Hw1). }
  split; [|split; [exact Hreach|]].
  - destruct (Edges_set_flow_chain_before n args w) as [[[]|e] w1] eqn:Hbefore.
    + exists KeyError, w1. by apply Hreach.
    + exists e, w1.
      rewrite (set_flow_chain_split _ n (PyObj l)) by done.
      unfold bind at 1. by rewrite Hbefore.
  - intros ->. by apply Hreach.
Qed.

(** ** C1 *)

Lemma same_flow_refl w : same_flow w w.
Proof. by repeat split. Qed.

Lemma same_flow_trans w1 w2 w3 :
  same_flow w1 w2 → same_flow w2 w3 → same_flow w1 w3.
Proof.
  intros (Hv & He & Hn) (Hv' & He' & Hn').
  split; [congruence|]. split; [congruence|].
  intros l. by rewrite Hn'.
Qed.

Lemma same_flow_with_active_vertex w o :
  same_flow w (with_active_vertex o w).
Proof. by repeat split. Qed.

Lemma output_frame_same_flow w w' : output_frame w w' → same_flow w w'.
Proof.
  intros (Hv & He & _ & Hh). repeat split; try done.
  intros l. unfold name_state. by apply Hh.
Qed.

Lemma linear_chain_same_flow w w' l rest :
  same_flow w w' → linear_chain w' l rest = linear_chain w l rest.
Proof.
  intros (Hv & He & Hn). revert l.
  induction rest as [|l' rest IH]; intros l; simpl;
    rewrite Hn, He; [done|].
  rewrite Hv. by rewrite IH.
Qed.

(** A vertex whose function leaves the flow and the cursor alone executes
    without touching them. *)
Lemma Vertex_execute_same_flow l w :
  (∀ kwargs w, same_flow w (function l kwargs w).2 ∧
               active_vertex (function l kwargs w).2 = active_vertex w) →
  same_flow w (Vertex_execute l w).2 ∧
  active_vertex (Vertex_execute l w).2 = active_vertex w.
Proof.
  intros Hfun. unfold Vertex_execute, Vertex_resolve_input. munfold. simpl.
  destruct (heap w !! l) as [v|] eqn:Hl; simpl; [|by split; [apply same_flow_refl|]].
  destruct (resolve (input v) w) as [kwargs|e] eqn:Hres; simpl;
    [|by split; [apply same_flow_refl|]].
  rewrite Hl. simpl. rewrite Hres.
  destruct (Hfun kwargs w) as [Hflow Hactive].
  destruct (function l kwargs w) as [[output_data|e] w1]; simpl in *; [|done].
  pose proof (Vertex_update_and_archive_frame (Child l) output_data w1)
    as Hframe.
  split.
  - eapply same_flow_trans; [exact Hflow|by apply output_frame_same_flow].
  - destruct Hframe as (_ & _ & Ha & _). congruence.
Qed.

(** A turn is normal when [execute] returns normally and the function of
    the vertex leaves the flow and the cursor alone. *)
Lemma normal_turns_turn (n : nat) w l :
  active_vertex w = Some l →
  (Vertex_execute l w).1 = Ok tt →
  (∀ kwargs w, same_flow w (function l kwargs w).2 ∧
               active_vertex (function l kwargs w).2 = active_vertex w) →
  normal_turns n ((Vertex_execute l ;; Graph_step) w).2 →
  normal_turns (S n) w.
Proof.
  intros Hactive Hexec Hframe Hturns.
  destruct (Vertex_execute_same_flow l w Hframe) as [Hflow1 Hactive1].
  cbn [normal_turns]. rewrite Hactive. by rewrite <- Hactive.
Qed.

Lemma Graph_step_follows_row w l name state (row : gmap string pykey) next :
  active_vertex w = Some l →
  name_state w l = Some (name, state) →
  edges w !! name = Some row →
  row !! state = Some next →
  Graph_step w =
    match next with
    | None => (Ok tt, with_active_vertex None w)
    | Some next_vertex_name =>
        match Dict.get (Some next_vertex_name) (vertices w) with
        | Some l' => (Ok tt, with_active_vertex (Some l') w)
        | None => (Raise KeyError, w)
        end
    end.
Proof.
  intros Hactive Hns Hrow Hnext. unfold name_state in Hns.
  destruct (heap w !! l) as [v|] eqn:Hl; [|done]. injection Hns as <- <-.
  unfold Graph_step, Edges_getitem, Vertices_getitem. munfold. simpl.
  rewrite Hactive, Hl, Hrow, Hnext.
  destruct next as [next_vertex_name|]; [|done].
  by destruct (Dict.get _ _).
Qed.

(** One turn of the loop of [Graph.function] that is normal. *)
Lemma Graph_function_turn w0 w l name state (row : gmap string pykey) next
    (n : nat) :
  same_flow w0 w →
  active_vertex w = Some l →
  name_state w0 l = Some (name, state) →
  edges w0 !! name = Some row →
  row !! state = Some next →
  normal_turns (S n) w →
  ∃ w1,
    same_flow w0 w1 ∧
    (Vertex_execute l ;; Graph_step) w =
      match next with
      | None => (Ok tt, with_active_vertex None w1)
      | Some next_vertex_name =>
          match Dict.get (Some next_vertex_name) (vertices w0) with
          | Some l' => (Ok tt, with_active_vertex (Some l') w1)
          | None => (Raise KeyError, w1)
          end
      end ∧
    normal_turns n ((Vertex_execute l ;; Graph_step) w).2.
Proof.
  intros Hflow Hactive Hns Hrow Hnext Hturns.
  simpl in Hturns. rewrite Hactive in Hturns.
  destruct Hturns as (Hexec & Hflow1 & Hactive1 & Hturns).
  revert Hturns. unfold bind.
  destruct (Vertex_execute l w) as [r w1]; simpl in *; subst r.
  intros Hturns.
  assert (same_flow w0 w1) as Hflow01
    by (eapply same_flow_trans; eauto).
  exists w1. split; [done|]. split; [|done].
  destruct Hflow01 as (Hv & He & Hn).
  rewrite (Graph_step_follows_row w1 l name state row next);
    [by rewrite Hv|congruence|by rewrite Hn|congruence|done].
Qed.

Lemma Graph_function_loop_chain (w0 : World) (rest : list loc) :
  ∀ (l : loc) (w : World) (fuel : nat),
    same_flow w0 w →
    active_vertex w = Some l →
    linear_chain w0 l rest = true →
    normal_turns (length (l :: rest)) w →
    (length (l :: rest) ≤ fuel)%nat →
    ∃ w', Graph_function_loop fuel w = Some (l :: rest, (Ok tt, w')) ∧
          active_vertex w' = None ∧ same_flow w0 w'.
Proof.
  induction rest as [|l2 rest IH];
    intros l w fuel Hflow Hactive Hchain Hturns Hfuel;
    (destruct fuel as [|fuel]; [simpl in Hfuel; lia|]);
    simpl in Hchain;
    destruct (name_state w0 l) as [[name state]|] eqn:Hns; try done;
    destruct (edges w0 !! name) as [row|] eqn:Hrow; try done;
    destruct (row !! state) as [[next|]|] eqn:Hnext; try done;
    (edestruct (Graph_function_turn w0 w l) as (w1 & Hflow1 & Hturn & Hnext');
       [done|done|done|done|done|exact Hturns|]);
    cbn [Graph_function_loop]; rewrite Hactive;
    rewrite Hturn in Hnext' |- *.
  - (* the last vertex of the chain *)
    exists (with_active_vertex None w1).
    destruct fuel; simpl; (split; [done|]); (split; [done|]);
      (eapply same_flow_trans; [exact Hflow1|]);
      apply same_flow_with_active_vertex.
  - (* a vertex with a successor *)
    apply andb_prop in Hchain as [Hget%bool_decide_eq_true Hchain].
    rewrite Hget in Hnext' |- *.
    assert (same_flow w0 (with_active_vertex (Some l2) w1)) as Hflow2.
    { eapply same_flow_trans; [exact Hflow1|].
      apply same_flow_with_active_vertex. }
    assert (length (l2 :: rest) ≤ fuel)%nat as Hfuel2.
    { simpl in Hfuel. simpl. lia. }
    destruct (IH l2 (with_active_vertex (Some l2) w1) fuel
                Hflow2 eq_refl Hchain Hnext' Hfuel2)
      as (w' & Hloop & Hnone & Hflow').
    exists w'. by rewrite Hloop.
Qed.

(** C1: in a graph whose cursor is on the first vertex of a linear chain of
    N vertices, each row giving, at the state its vertex reports, the name of
    the next vertex and the last row no successor, and in whose run the N
    calls of [execute] return normally and leave names, states, table and
    cursor alone, the loop of [function] ends, having called [execute] on
    exactly the N vertices of the chain, each once and in order; the cursor
    is then [None], and [function] goes on to [get_output].  The premise is
    on the N turns of this run only: a vertex may read what an earlier one
    has pushed, and may fail in states the run does not reach. *)
Theorem C1_linear_chain_runs_each_vertex_once
    (w0 : World) (l1 : loc) (rest : list loc) (fuel : nat) :
  active_vertex w0 = Some l1 →
  linear_chain w0 l1 rest = true →
  normal_turns (length (l1 :: rest)) w0 →
  (length (l1 :: rest) ≤ fuel)%nat →
  ∃ w',
    Graph_function_loop fuel w0 = Some (l1 :: rest, (Ok tt, w')) ∧
    active_vertex w' = None ∧
    Graph_function fuel w0 = Some (l1 :: rest, get_output w').
Proof.
  intros Hactive Hchain Hturns Hfuel.
  destruct (Graph_function_loop_chain w0 rest l1 w0 fuel
              (same_flow_refl w0) Hactive Hchain Hturns Hfuel)
    as (w' & Hloop & Hnone & _).
  exists w'. split; [done|]. split; [done|].
  unfold Graph_function. by rewrite Hloop.
Qed.

(** ** The wiring invariant: C2 and C9 *)

Lemma for_each_initialize (ls : list loc) w :
  (∀ l, l ∈ ls → is_Some (heap w !! l)) →
  for_each ls Edges_initialize w =
    (Ok tt, with_edges (initial_rows (heap w) ls (edges w)) w).
Proof.
  revert w. induction ls as [|l ls IH]; intros w Hheap; simpl.
  { by rewrite with_edges_id. }
  destruct (Hheap l) as [v Hl]; [left|].
  unfold bind. rewrite (Edges_initialize_vertex l v) by done.
  rewrite IH; simpl.
  - by rewrite Hl.
  - intros l0 Hl0. apply Hheap. by right.
Qed.

Lemma initial_rows_other (h : gmap loc Vertex) (ls : list loc) es k :
  (∀ l v, l ∈ ls → h !! l = Some v → vertex_name v ≠ k) →
  initial_rows h ls es !! k = es !! k.
Proof.
  revert es. induction ls as [|l ls IH]; intros es Hne; simpl; [done|].
  rewrite IH.
  - destruct (h !! l) as [v|] eqn:Hl; [|done].
    rewrite lookup_insert_ne; [done|]. eapply Hne; [left|done].
  - intros l0 v0 Hin. apply Hne. by right.
Qed.

Lemma initial_rows_lookup (h : gmap loc Vertex) (vs : list (pykey * loc)) :
  NoDup vs.*1 →
  (∀ k l, (k, l) ∈ vs → ∃ v, h !! l = Some v ∧ vertex_name v = k) →
  ∀ es k l v, (k, l) ∈ vs → h !! l = Some v →
    initial_rows h (Dict.values vs) es !! k
    = Some (dead_end (possible_vertex_states v)).
Proof.
  unfold Dict.values.
  induction vs as [|[k0 l0] vs IH]; intros Hnd Hsync es k l v Hin Hl.
  { by apply not_elem_of_nil in Hin. }
  rewrite fmap_cons in Hnd. apply NoDup_cons in Hnd as [Hfresh Hnd].
  simpl. apply elem_of_cons in Hin as [[= -> ->]|Hin].
  - destruct (Hsync k0 l0) as (v0 & Hl0 & Hname); [left|].
    rewrite Hl in Hl0. injection Hl0 as <-.
    rewrite initial_rows_other.
    + rewrite Hl, Hname. by rewrite lookup_insert_eq.
    + intros l1 v1 ([k1 l1'] & -> & Hin1)%list_elem_of_fmap Hl1 <-.
      simpl in *. destruct (Hsync k1 l1') as (v1' & Hl1' & Hname1);
        [by right|].
      apply Hfresh. apply list_elem_of_fmap. exists (k1, l1').
      split; [|done]. simpl. congruence.
  - eapply IH; eauto. intros k1 l1 Hin1. apply Hsync. by right.
Qed.

(** What the end of a turn of the loop of [set_flow_chain] can do:
    nothing, or overwrite one entry, for a state the source vertex declares,
    in a row that exists, with the name of the target vertex. *)
Lemma set_flow_chain_edge_cases l (state : string) (next_vertex : pyval) w :
  (set_flow_chain_edge l state next_vertex w).2 = w ∨
  ∃ l' v v' (row : gmap string pykey),
    next_vertex = PyObj l' ∧
    heap w !! l = Some v ∧ heap w !! l' = Some v' ∧
    state ∈ possible_vertex_states v ∧
    edges w !! vertex_name v = Some row ∧
    (set_flow_chain_edge l state next_vertex w).2 =
      with_edges
        (<[vertex_name v := <[state := vertex_name v']> row]> (edges w)) w.
Proof.
  unfold set_flow_chain_edge, Edges_getitem. munfold.
  destruct next_vertex as [| | |l']; try by left.
  destruct (heap w !! l) as [v|] eqn:Hl; [|by left].
  destruct (decide (state ∉ possible_vertex_states v)) as [|Hstate];
    [by left|].
  destruct (heap w !! l') as [v'|] eqn:Hl'; [|by left].
  destruct (edges w !! vertex_name v) as [row|] eqn:Hrow; [|by left].
  right. exists l', v, v', row.
  repeat split; try done. by apply dec_stable.
Qed.

Lemma set_flow_chain_body_cases args (n : nat) (vertex : pyval) w :
  vertex ∈ args →
  (set_flow_chain_body args (n, vertex) w).2 = w ∨
  ∃ l l' v v' (row : gmap string pykey) (state : string),
    PyObj l ∈ args ∧ PyObj l' ∈ args ∧
    heap w !! l = Some v ∧ heap w !! l' = Some v' ∧
    state ∈ possible_vertex_states v ∧
    edges w !! vertex_name v = Some row ∧
    (set_flow_chain_body args (n, vertex) w).2 =
      with_edges
        (<[vertex_name v := <[state := vertex_name v']> row]> (edges w)) w.
Proof.
  intros Hvertex. unfold set_flow_chain_body, tuple_getitem.
  destruct vertex as [| | |l]; try by left.
  destruct (args !! (n + 1)%nat) as [next_obj|] eqn:Hnext; [|by left].
  assert (next_obj ∈ args) as Hnext_in by (by eapply list_elem_of_lookup_2).
  assert (∀ state next_vertex, next_vertex ∈ args →
    (set_flow_chain_edge l state next_vertex w).2 = w ∨
    ∃ l0 l' v v' (row : gmap string pykey) (state0 : string),
      PyObj l0 ∈ args ∧ PyObj l' ∈ args ∧
      heap w !! l0 = Some v ∧ heap w !! l' = Some v' ∧
      state0 ∈ possible_vertex_states v ∧
      edges w !! vertex_name v = Some row ∧
      (set_flow_chain_edge l state next_vertex w).2 =
        with_edges
          (<[vertex_name v := <[state0 := vertex_name v']> row]> (edges w))
          w) as Hedge.
  { intros state next_vertex Hin.
    destruct (set_flow_chain_edge_cases l state next_vertex w)
      as [?|(l' & v & v' & row & -> & ? & ? & ? & ? & ?)]; [by left|].
    right. by exists l, l', v, v', row, state. }
  unfold bind at 1. unfold ret at 1.
  destruct next_obj as [|state| |l0]; try (by apply Hedge).
  unfold bind.
  destruct (args !! (n + 2)%nat) as [next_vertex|] eqn:Hnext2; [|by left].
  apply Hedge. by eapply list_elem_of_lookup_2.
Qed.

Lemma enumerate_from_elem {A} (xs : list A) (n i : nat) (x : A) :
  (i, x) ∈ enumerate_from n xs → x ∈ xs.
Proof.
  intros [j Hj]%list_elem_of_lookup_1.
  rewrite enumerate_from_lookup in Hj.
  destruct (xs !! j) as [y|] eqn:Hy; [|done].
  injection Hj as _ ->. by eapply list_elem_of_lookup_2.
Qed.

Lemma removelast_elem {A} (xs : list A) (x : A) :
  x ∈ removelast xs → x ∈ xs.
Proof.
  rewrite removelast_firstn_len. change (@firstn A) with (@take A).
  apply subseteq_take.
Qed.

Lemma Vertices_synced_check_sound w :
  Vertices_synced_check w = true → Vertices_synced w.
Proof.
  unfold Vertices_synced_check.
  intros [Hnd%bool_decide_eq_true Hall]%andb_prop. split; [done|].
  rewrite forallb_forall in Hall. intros k l Hin.
  specialize (Hall (k, l)). simpl in Hall.
  destruct (heap w !! l) as [v|].
  - exists v. split; [done|].
    eapply bool_decide_eq_true, Hall. by apply list_elem_of_In.
  - exfalso. eapply diff_false_true, Hall. by apply list_elem_of_In.
Qed.

Lemma over_registered_check_sound w args :
  over_registered_check w args = true → over_registered w args.
Proof.
  unfold over_registered_check. rewrite forallb_forall.
  intros Hall l Hin. apply list_elem_of_In in Hin.
  specialize (Hall _ Hin). simpl in Hall.
  by apply bool_decide_eq_true in Hall.
Qed.

Lemma only_edges_synced w w' :
  only_edges w w' → Vertices_synced w → Vertices_synced w'.
Proof. by intros ->. Qed.

Lemma only_edges_over_registered w w' args :
  only_edges w w' → over_registered w args → over_registered w' args.
Proof. by intros ->. Qed.

Lemma registered_key w l v :
  Vertices_synced w → registered w l → heap w !! l = Some v →
  (vertex_name v, l) ∈ vertices w.
Proof.
  intros [_ Hsync] [k Hin]%Dict_values_elem Hl.
  destruct (Hsync k l Hin) as (v0 & Hl0 & <-). congruence.
Qed.

(** Overwriting an entry the way [set_flow_chain] does keeps the table
    complete and its successors registered. *)
Lemma wired_overwrite w l l' v v' (row : gmap string pykey) (state : string) :
  Vertices_synced w → rows_complete w → successors_registered w →
  registered w l → registered w l' →
  heap w !! l = Some v → heap w !! l' = Some v' →
  state ∈ possible_vertex_states v →
  edges w !! vertex_name v = Some row →
  rows_complete
    (with_edges
       (<[vertex_name v := <[state := vertex_name v']> row]> (edges w)) w) ∧
  successors_registered
    (with_edges
       (<[vertex_name v := <[state := vertex_name v']> row]> (edges w)) w).
Proof.
  intros Hsync Hrows Hsucc Hreg Hreg' Hl Hl' Hstate Hrow.
  pose proof (registered_key w l v Hsync Hreg Hl) as Hkey.
  pose proof (registered_key w l' v' Hsync Hreg' Hl') as Hkey'.
  split.
  - intros k2 l2 v2 Hin2 Hl2. simpl in *.
    destruct (decide (vertex_name v = k2)) as [<-|Hne].
    + assert (l2 = l) as -> by (eapply Dict_NoDup_elem_eq; [apply Hsync|..]; done).
      assert (v2 = v) as -> by congruence.
      rewrite lookup_insert_eq. eexists. split; [done|].
      destruct (Hrows _ _ _ Hkey Hl) as (row0 & Hrow0 & Hdom).
      assert (row0 = row) as -> by congruence.
      rewrite dom_insert_L, Hdom.
      apply subseteq_union_1_L, singleton_subseteq_l.
      by apply elem_of_list_to_set.
    + rewrite lookup_insert_ne by done. by eapply Hrows.
  - intros k2 l2 row2 s next Hin2 Hrow2 Hnext. simpl in *.
    destruct (decide (vertex_name v = k2)) as [<-|Hne].
    + rewrite lookup_insert_eq in Hrow2. injection Hrow2 as <-.
      destruct (decide (state = s)) as [<-|Hs].
      * rewrite lookup_insert_eq in Hnext. injection Hnext as Hnext.
        rewrite <- Hnext. by eapply Dict_elem_get.
      * rewrite lookup_insert_ne in Hnext by done. by eapply Hsucc.
    + rewrite lookup_insert_ne in Hrow2 by done. by eapply Hsucc.
Qed.

Lemma set_flow_chain_body_wired args (n : nat) (vertex : pyval) w :
  vertex ∈ args →
  Vertices_synced w → over_registered w args →
  rows_complete w → successors_registered w →
  rows_complete (set_flow_chain_body args (n, vertex) w).2 ∧
  successors_registered (set_flow_chain_body args (n, vertex) w).2.
Proof.
  intros Hvertex Hsync Hargs Hrows Hsucc.
  destruct (set_flow_chain_body_cases args n vertex w Hvertex)
    as [->|(l & l' & v & v' & row & state & Hin & Hin' & Hl & Hl' & Hstate
            & Hrow & ->)]; [done|].
  apply (wired_overwrite w l l'); try done.
  - by apply Hargs.
  - by apply Hargs.
Qed.

Lemma for_each_set_flow_chain_wired args (items : list (nat * pyval)) w :
  Forall (λ item, item.2 ∈ args) items →
  Vertices_synced w → over_registered w args →
  rows_complete w → successors_registered w →
  rows_complete (for_each items (set_flow_chain_body args) w).2 ∧
  successors_registered (for_each items (set_flow_chain_body args) w).2.
Proof.
  intros Hitems. revert w.
  induction Hitems as [|[n vertex] items Hitem _ IH];
    intros w Hsync Hargs Hrows Hsucc; [done|].
  rewrite for_each_cons.
  pose proof (set_flow_chain_body_wired args n vertex w Hitem Hsync Hargs
                Hrows Hsucc) as [Hrows1 Hsucc1].
  pose proof (set_flow_chain_body_only_edges args (n, vertex) w) as Hframe.
  destruct (set_flow_chain_body args (n, vertex) w) as [[[]|e] w1];
    simpl in *; [|by split].
  apply IH; try done.
  - by eapply only_edges_synced.
  - by eapply only_edges_over_registered.
Qed.

Lemma Edges_set_flow_chain_wired args w :
  Vertices_synced w → over_registered w args →
  rows_complete w → successors_registered w →
  only_edges w (Edges_set_flow_chain args w).2 ∧
  rows_complete (Edges_set_flow_chain args w).2 ∧
  successors_registered (Edges_set_flow_chain args w).2.
Proof.
  intros Hsync Hargs Hrows Hsucc. unfold Edges_set_flow_chain. split.
  - apply for_each_only_edges, set_flow_chain_body_only_edges.
  - apply for_each_set_flow_chain_wired; try done.
    apply Forall_forall. intros [n x] Hin. simpl.
    by eapply removelast_elem, enumerate_from_elem.
Qed.

Lemma run_each_set_flow_chain_wired (calls : list (list pyval)) w :
  Vertices_synced w → Forall (over_registered w) calls →
  rows_complete w → successors_registered w →
  only_edges w (run_each Edges_set_flow_chain calls w) ∧
  rows_complete (run_each Edges_set_flow_chain calls w) ∧
  successors_registered (run_each Edges_set_flow_chain calls w).
Proof.
  intros Hsync Hcalls. revert w Hsync Hcalls.
  induction calls as [|args calls IH]; intros w Hsync Hcalls Hrows Hsucc.
  { simpl. split; [apply only_edges_refl|done]. }
  apply Forall_cons in Hcalls as [Hargs Hcalls]. simpl.
  destruct (Edges_set_flow_chain_wired args w Hsync Hargs Hrows Hsucc)
    as (Hframe & Hrows1 & Hsucc1).
  destruct (IH (Edges_set_flow_chain args w).2) as (Hframe' & Hrows' & Hsucc');
    try done.
  - by eapply only_edges_synced.
  - eapply Forall_impl; [exact Hcalls|]. intros args'.
    by apply only_edges_over_registered.
  - split; [|done]. by eapply only_edges_trans.
Qed.

(** [_initialize_edges] on a collection in which every vertex bears its key:
    every registered vertex gets the dead-end row of its declared states. *)
Lemma Graph_initialize_edges_synced w :
  Vertices_synced w →
  Graph_initialize_edges w =
    (Ok tt,
     with_edges
       (initial_rows (heap w) (Dict.values (vertices w)) (edges w)) w) ∧
  ∀ k l v, (k, l) ∈ vertices w → heap w !! l = Some v →
    vertex_name v = k ∧
    initial_rows (heap w) (Dict.values (vertices w)) (edges w) !! k
    = Some (dead_end (possible_vertex_states v)).
Proof.
  intros [Hnd Hsync]. split.
  - unfold Graph_initialize_edges. unfold bind, gets. simpl.
    apply for_each_initialize.
    intros l [k Hin]%Dict_values_elem.
    destruct (Hsync k l Hin) as (v & Hl & _). by eexists.
  - intros k l v Hin Hl. split.
    + destruct (Hsync k l Hin) as (v0 & Hl0 & <-). congruence.
    + by eapply initial_rows_lookup.
Qed.

Lemma Graph_initialize_edges_wired w :
  Vertices_synced w →
  rows_complete (Graph_initialize_edges w).2 ∧
  successors_registered (Graph_initialize_edges w).2.
Proof.
  intros Hsync.
  destruct (Graph_initialize_edges_synced w Hsync) as [-> Hrows]. simpl.
  split.
  - intros k l v Hin Hl. simpl in *.
    destruct (Hrows k l v Hin Hl) as [_ ->].
    eexists. split; [done|]. apply dead_end_dom.
  - intros k l row s next Hin Hrow Hnext. simpl in *.
    destruct Hsync as [Hnd Hsync].
    destruct (Hsync k l Hin) as (v & Hl & Hname).
    destruct (Hrows k l v Hin Hl) as [_ Hrow'].
    rewrite Hrow' in Hrow. injection Hrow as <-.
    rewrite dead_end_lookup in Hnext. by case_decide.
Qed.

(** C2 as the code has it: when the collection holds no key twice and every
    vertex in it bears its key as name, [_initialize_edges] returns
    normally, writes to the table only, and leaves under the name of every
    registered vertex the row that has exactly the declared states of that
    vertex, each mapped to [None]; after any calls of [set_flow_chain] on
    registered vertices, whether they return or raise, every registered
    vertex still has a row under its name whose states are exactly its
    declared states. *)
Theorem C2_rows_cover_declared_states
    (w0 : World) (calls : list (list pyval)) :
  Vertices_synced w0 →
  Forall (over_registered w0) calls →
  ∃ w1,
    Graph_initialize_edges w0 = (Ok tt, w1) ∧
    only_edges w0 w1 ∧
    (∀ k l v, (k, l) ∈ vertices w0 → heap w0 !! l = Some v →
       vertex_name v = k ∧
       ∃ row : gmap string pykey,
         edges w1 !! k = Some row ∧
         dom row = list_to_set (possible_vertex_states v) ∧
         ∀ s, s ∈ possible_vertex_states v → row !! s = Some None) ∧
    only_edges w0 (run_each Edges_set_flow_chain calls w1) ∧
    rows_complete (run_each Edges_set_flow_chain calls w1).
Proof.
  intros Hsync Hcalls.
  destruct (Graph_initialize_edges_synced w0 Hsync) as [Hinit Hrows].
  pose proof (Graph_initialize_edges_wired w0 Hsync) as [Hcomplete Hsucc].
  rewrite Hinit in Hcomplete, Hsucc. simpl in *.
  eexists. split; [exact Hinit|].
  assert (only_edges w0
            (with_edges
               (initial_rows (heap w0) (Dict.values (vertices w0)) (edges w0))
               w0)) as Hframe by done.
  split; [done|]. split.
  - intros k l v Hin Hl. destruct (Hrows k l v Hin Hl) as [Hname Hrow].
    split; [done|]. eexists. split; [exact Hrow|].
    split; [apply dead_end_dom|].
    intros s Hs. rewrite dead_end_lookup. by rewrite decide_True.
  - destruct (run_each_set_flow_chain_wired calls
                (with_edges
                   (initial_rows (heap w0) (Dict.values (vertices w0))
                      (edges w0)) w0)
                Hsync Hcalls Hcomplete Hsucc)
      as (Hframe' & Hrows' & _).
    split; [|done].
    eapply only_edges_trans; [exact Hframe|exact Hframe'].
Qed.

(** ** C9 *)

Lemma same_wiring_synced w w' :
  same_wiring w w' → Vertices_synced w → Vertices_synced w'.
Proof.
  intros (Hv & _ & Hheap) [Hnd Hsync]. split; [by rewrite Hv|].
  intros k l Hin. rewrite Hv in Hin.
  destruct (Hsync k l Hin) as (v & Hl & Hname).
  destruct (Hheap l v Hl) as (v' & Hl' & Hname' & _).
  exists v'. split; [done|congruence].
Qed.

Lemma same_wiring_rows_complete w w' :
  same_wiring w w' → Vertices_synced w →
  rows_complete w → rows_complete w'.
Proof.
  intros (Hv & He & Hheap) [_ Hsync] Hrows k l v' Hin Hl'.
  rewrite Hv in Hin. rewrite He.
  destruct (Hsync k l Hin) as (v & Hl & _).
  destruct (Hheap l v Hl) as (v'' & Hl'' & _ & Hstates).
  assert (v'' = v') as -> by congruence.
  rewrite Hstates. by eapply Hrows.
Qed.

Lemma same_wiring_successors_registered w w' :
  same_wiring w w' → successors_registered w → successors_registered w'.
Proof.
  intros (Hv & He & _) Hsucc k l row s next. rewrite Hv, He. apply Hsucc.
Qed.

(** On a complete table with registered successors, [step] from a
    registered vertex in a declared state finds all it looks up. *)
Lemma Graph_step_wired w l v :
  Vertices_synced w → rows_complete w → successors_registered w →
  active_vertex w = Some l → registered w l → heap w !! l = Some v →
  _vertex_state v ∈ possible_vertex_states v →
  ∃ next : option loc,
    Graph_step w = (Ok tt, with_active_vertex next w) ∧
    ∀ l', next = Some l' → registered w l'.
Proof.
  intros Hsync Hrows Hsucc Hactive Hreg Hl Hstate.
  pose proof (registered_key w l v Hsync Hreg Hl) as Hkey.
  destruct (Hrows _ _ _ Hkey Hl) as (row & Hrow & Hdom).
  assert (is_Some (row !! _vertex_state v)) as [next Hnext].
  { apply elem_of_dom. rewrite Hdom. by apply elem_of_list_to_set. }
  rewrite (Graph_step_follows_row w l (vertex_name v) (_vertex_state v)
             row next); try done.
  2:{ unfold name_state. by rewrite Hl. }
  destruct next as [next_vertex_name|].
  - destruct (Hsucc _ _ _ _ _ Hkey Hrow Hnext) as [l' Hget].
    rewrite Hget. exists (Some l'). split; [done|].
    intros ? [= <-]. eapply Dict_elem_values, Dict_get_Some_elem, Hget.
  - exists None. by split.
Qed.

(** C9 as the code has it: take a collection that holds no key twice and in
    which every vertex bears its key as name; run [_initialize_edges], then
    any calls of [set_flow_chain] on registered vertices; let vertices
    change afterwards in anything but their names and declared states.
    Then [step] from a registered vertex whose state is one of its declared
    states raises nothing: it returns normally, changes the cursor only,
    and leaves it empty or on a registered vertex. *)
Theorem C9_step_lookups_succeed
    (w0 : World) (calls : list (list pyval)) (w : World) (l : loc)
    (v : Vertex) :
  Vertices_synced w0 →
  Forall (over_registered w0) calls →
  same_wiring
    (run_each Edges_set_flow_chain calls (Graph_initialize_edges w0).2) w →
  active_vertex w = Some l →
  registered w l →
  heap w !! l = Some v →
  _vertex_state v ∈ possible_vertex_states v →
  ∃ next : option loc,
    Graph_step w = (Ok tt, with_active_vertex next w) ∧
    ∀ l', next = Some l' → registered w l'.
Proof.
  intros Hsync Hcalls Hsame Hactive Hreg Hl Hstate.
  pose proof (Graph_initialize_edges_wired w0 Hsync) as [Hrows1 Hsucc1].
  pose proof (proj1 (Graph_initialize_edges_synced w0 Hsync)) as Hinit.
  assert (only_edges w0 (Graph_initialize_edges w0).2) as Hframe1.
  { by rewrite Hinit. }
  destruct (run_each_set_flow_chain_wired calls (Graph_initialize_edges w0).2)
    as (Hframe2 & Hrows2 & Hsucc2); try done.
  { by eapply only_edges_synced. }
  { eapply Forall_impl; [exact Hcalls|]. intros args.
    by apply only_edges_over_registered. }
  assert (Vertices_synced
            (run_each Edges_set_flow_chain calls (Graph_initialize_edges w0).2))
    as Hsync2.
  { eapply only_edges_synced; [exact Hframe2|].
    by eapply only_edges_synced. }
  eapply Graph_step_wired; try done.
  - by eapply same_wiring_synced.
  - by eapply same_wiring_rows_complete.
  - by eapply same_wiring_successors_registered.
Qed.

End Facts.

(** * Further facts about the methods *)
Section MoreFacts.
Context `{mt : Methods}.
Implicit Types (w : World) (v : Vertex) (l : loc) (k key : pykey).

Ltac mrun :=
  unfold bind, ret, raise, gets, modify, lift, warn, deref, mutate.

(** ** The [vertex_state] property and its setter *)

(** X1: the setter admits exactly the declared states.  Accepted, the new
    state is what the property reads afterwards and nothing else has
    changed; refused with [ValueError], the call changes nothing and the
    property still reads the old state. *)
Theorem X1_vertex_state_set_then_get
    (l : loc) (v : Vertex) (new_state : string) (w : World) :
  heap w !! l = Some v →
  (new_state ∈ possible_vertex_states v →
     ∃ w',
       Vertex_set_vertex_state (Child l) new_state w = (Ok tt, w') ∧
       Vertex_vertex_state (Child l) w' = (Ok new_state, w') ∧
       w' = with_heap (<[l := with_vertex_state new_state v]> (heap w)) w) ∧
  (new_state ∉ possible_vertex_states v →
     Vertex_set_vertex_state (Child l) new_state w = (Raise ValueError, w) ∧
     Vertex_vertex_state (Child l) w = (Ok (_vertex_state v), w)).
Proof.
  intros Hl. rewrite (Vertex_set_vertex_state_child l v) by done. split.
  - intros Hin. rewrite decide_True by done. eexists. split; [done|].
    split; [|done]. unfold Vertex_vertex_state. mrun. simpl.
    by rewrite lookup_insert_eq.
  - intros Hnotin. rewrite decide_False by done. split; [done|].
    unfold Vertex_vertex_state. mrun. by rewrite Hl.
Qed.

(** ** Edges: the key of a row *)

(** X2: [Edges.__setitem__] for a vertex returns normally exactly when the
    key is the vertex's name; under any other key it raises [ValueError] and
    changes nothing.  [Edges.initialize], which passes the name itself,
    always returns normally. *)
Theorem X2_edges_key_is_vertex_name
    (l : loc) (v : Vertex) (key : pykey) (w : World) :
  heap w !! l = Some v →
  ((Edges_setitem key (PyObj l) w).1 = Ok tt ↔ key = vertex_name v) ∧
  (key ≠ vertex_name v →
     Edges_setitem key (PyObj l) w = (Raise ValueError, w)) ∧
  (Edges_initialize l w).1 = Ok tt.
Proof.
  intros Hl.
  assert (key ≠ vertex_name v →
          Edges_setitem key (PyObj l) w = (Raise ValueError, w)) as Hne.
  { intros Hkey. unfold Edges_setitem. mrun. rewrite Hl.
    by rewrite decide_True. }
  split; [|split; [done|]].
  - split.
    + intros Hok. destruct (decide (key = vertex_name v)) as [|Hkey]; [done|].
      by rewrite Hne in Hok.
    + intros ->. by rewrite (Edges_setitem_vertex l v).
  - by rewrite (Edges_initialize_vertex l v).
Qed.

(** ** Vertices: storing and looking up *)

(** X3: after a vertex object is stored under a key, looking the key up
    gives that object; lookups of other keys, all other objects, the table
    and the cursor are as before; of the object itself only the name has
    changed; and the key keeps its place in the iteration order, or comes
    last when it is new. *)
Theorem X3_vertices_store_then_lookup
    (l : loc) (v : Vertex) (key : pykey) (w : World) :
  heap w !! l = Some v →
  ∃ w',
    Vertices_setitem key (PyObj l) w = (Ok tt, w') ∧
    Vertices_getitem key w' = (Ok l, w') ∧
    (∀ k', k' ≠ key → (Vertices_getitem k' w').1 = (Vertices_getitem k' w).1) ∧
    heap w' !! l = Some (with_vertex_name key v) ∧
    (∀ l', l' ≠ l → heap w' !! l' = heap w !! l') ∧
    edges w' = edges w ∧ active_vertex w' = active_vertex w ∧
    (vertices w').*1 =
      (if decide (key ∈ (vertices w).*1)
       then (vertices w).*1 else (vertices w).*1 ++ [key]).
Proof.
  intros Hl. rewrite (Vertices_setitem_vertex key l v) by done.
  eexists. split; [done|]. simpl.
  split.
  { unfold Vertices_getitem. simpl. by rewrite Dict_get_set_eq. }
  split.
  { intros k' Hk'. unfold Vertices_getitem. simpl.
    rewrite Dict_get_set_ne by done. by destruct (Dict.get k' (vertices w)). }
  split; [by rewrite lookup_insert_eq|].
  split; [intros l' Hl'; by rewrite lookup_insert_ne|].
  split; [done|]. split; [done|]. apply Dict_set_keys.
Qed.

(** ** set_flow_chain, link by link *)

Lemma set_flow_chain_body_shift (x : pyval) args (n : nat) (y : pyval) w :
  set_flow_chain_body (x :: args) (S n, y) w
  = set_flow_chain_body args (n, y) w.
Proof. done. Qed.

Lemma for_each_set_flow_chain_shift (x : pyval) args (items : list pyval)
    (n : nat) w :
  for_each (enumerate_from (S n) items) (set_flow_chain_body (x :: args)) w
  = for_each (enumerate_from n items) (set_flow_chain_body args) w.
Proof.
  revert n w. induction items as [|y items IH]; intros n w; [done|].
  cbn [enumerate_from]. rewrite !for_each_cons, set_flow_chain_body_shift.
  destruct (set_flow_chain_body args (n, y) w) as [[[]|e] w']; [|done].
  apply IH.
Qed.

Lemma removelast_cons_cons {A} (x y : A) (xs : list A) :
  removelast (x :: y :: xs) = x :: removelast (y :: xs).
Proof. done. Qed.

(** An argument that is no vertex, at the head, is passed over. *)
Lemma set_flow_chain_skip (x : pyval) (rest : list pyval) w :
  isinstance_Vertex x = false →
  Edges_set_flow_chain (x :: rest) w = Edges_set_flow_chain rest w.
Proof.
  intros Hx. unfold Edges_set_flow_chain.
  destruct rest as [|y rest]; [done|].
  rewrite removelast_cons_cons. cbn [enumerate_from]. rewrite for_each_cons.
  assert (set_flow_chain_body (x :: y :: rest) (0%nat, x) w = (Ok tt, w))
    as -> by (by destruct x).
  apply for_each_set_flow_chain_shift.
Qed.

Lemma set_flow_chain_default_link l (y : pyval) (rest : list pyval) w :
  isinstance_str y = false →
  Edges_set_flow_chain (PyObj l :: y :: rest) w
  = (set_flow_chain_edge l DEFAULT_STATE y ;;
     Edges_set_flow_chain (y :: rest)) w.
Proof.
  intros Hy. unfold Edges_set_flow_chain at 1.
  rewrite removelast_cons_cons. cbn [enumerate_from]. rewrite for_each_cons.
  assert (set_flow_chain_body (PyObj l :: y :: rest) (0%nat, PyObj l) w
          = set_flow_chain_edge l DEFAULT_STATE y w) as ->.
  { unfold set_flow_chain_body, tuple_getitem. simpl. mrun.
    by destruct y. }
  unfold bind.
  destruct (set_flow_chain_edge l DEFAULT_STATE y w) as [[[]|e] w']; [|done].
  apply for_each_set_flow_chain_shift.
Qed.

Lemma set_flow_chain_named_link l (s : string) (y : pyval)
    (rest : list pyval) w :
  Edges_set_flow_chain (PyObj l :: PyStr s :: y :: rest) w
  = (set_flow_chain_edge l s y ;; Edges_set_flow_chain (y :: rest)) w.
Proof.
  unfold Edges_set_flow_chain at 1.
  rewrite !removelast_cons_cons. cbn [enumerate_from].
  rewrite for_each_cons.
  assert (set_flow_chain_body (PyObj l :: PyStr s :: y :: rest)
            (0%nat, PyObj l) w
          = set_flow_chain_edge l s y w) as ->.
  { unfold set_flow_chain_body, tuple_getitem. simpl. mrun.
    by destruct (set_flow_chain_edge l s y w). }
  unfold bind.
  destruct (set_flow_chain_edge l s y w) as [[[]|e] w']; [|done].
  rewrite for_each_cons.
  assert (set_flow_chain_body (PyObj l :: PyStr s :: y :: rest)
            (1%nat, PyStr s) w' = (Ok tt, w')) as -> by done.
  rewrite for_each_set_flow_chain_shift.
  apply for_each_set_flow_chain_shift.
Qed.

Lemma set_flow_chain_pair l (y : pyval) w :
  isinstance_str y = false →
  Edges_set_flow_chain [PyObj l; y] w = set_flow_chain_edge l DEFAULT_STATE y w.
Proof.
  intros Hy. rewrite set_flow_chain_default_link by done.
  unfold bind.
  by destruct (set_flow_chain_edge l DEFAULT_STATE y w) as [[[]|e] w'].
Qed.

Lemma set_flow_chain_triple l (s : string) (y : pyval) w :
  Edges_set_flow_chain [PyObj l; PyStr s; y] w = set_flow_chain_edge l s y w.
Proof.
  rewrite set_flow_chain_named_link. unfold bind.
  by destruct (set_flow_chain_edge l s y w) as [[[]|e] w'].
Qed.

(** X4: a call of [set_flow_chain] is the sequence of the calls for its
    links.  A leading argument that is no vertex is passed over; a leading
    vertex followed by a state string and a third argument makes one call on
    these three, then the call on the rest from the third on; a leading
    vertex followed by anything but a string makes one call on these two,
    then the call on the rest from the second on.  An exception of the first
    call ends the whole. *)
Theorem X4_set_flow_chain_by_links (rest : list pyval) (w : World) :
  (∀ x, isinstance_Vertex x = false →
     Edges_set_flow_chain (x :: rest) w = Edges_set_flow_chain rest w) ∧
  (∀ l s y,
     Edges_set_flow_chain (PyObj l :: PyStr s :: y :: rest) w
     = (Edges_set_flow_chain [PyObj l; PyStr s; y] ;;
        Edges_set_flow_chain (y :: rest)) w) ∧
  (∀ l y, isinstance_str y = false →
     Edges_set_flow_chain (PyObj l :: y :: rest) w
     = (Edges_set_flow_chain [PyObj l; y] ;;
        Edges_set_flow_chain (y :: rest)) w).
Proof.
  split; [intros x Hx; by apply set_flow_chain_skip|]. split.
  - intros l s y. rewrite set_flow_chain_named_link. unfold bind.
    by rewrite set_flow_chain_triple.
  - intros l y Hy. rewrite set_flow_chain_default_link by done. unfold bind.
    by rewrite set_flow_chain_pair.
Qed.

(** X5: one link.  [set_flow_chain(v, v')], and [set_flow_chain(v, s, v')]
    for a state string [s], with [state] the default state or [s]: when [v]
    declares [state] and has a row under its name, the call returns normally
    and has overwritten, in that row, the entry of [state] with the name of
    [v'], and nothing else; when [v] declares [state] but has no row, it
    raises [KeyError] and changes nothing. *)
Theorem X5_set_flow_chain_one_link
    (l l' : loc) (v v' : Vertex) (args : list pyval) (state : string)
    (w : World) :
  heap w !! l = Some v →
  heap w !! l' = Some v' →
  (args = [PyObj l; PyObj l'] ∧ state = DEFAULT_STATE) ∨
    args = [PyObj l; PyStr state; PyObj l'] →
  state ∈ possible_vertex_states v →
  Edges_set_flow_chain args w =
    match edges w !! vertex_name v with
    | Some row =>
        (Ok tt,
         with_edges
           (<[vertex_name v := <[state := vertex_name v']> row]> (edges w)) w)
    | None => (Raise KeyError, w)
    end.
Proof.
  intros Hl Hl' Hargs Hstate.
  assert (Edges_set_flow_chain args w
          = set_flow_chain_edge l state (PyObj l') w) as ->.
  { destruct Hargs as [[-> ->]| ->].
    - by apply set_flow_chain_pair.
    - apply set_flow_chain_triple. }
  unfold set_flow_chain_edge, Edges_getitem. mrun. rewrite Hl.
  rewrite decide_False by (by intros ?). rewrite Hl'.
  by destruct (edges w !! vertex_name v).
Qed.

Lemma set_flow_chain_edge_not_vertex l (state : string) (y : pyval) w :
  isinstance_Vertex y = false →
  set_flow_chain_edge l state y w = (Raise TypeError, w).
Proof. intros Hy. by destruct y. Qed.

(** X6: the ill-formed links.  A vertex followed by a state string with
    nothing after it raises [IndexError]; a vertex followed by something that
    is neither a string nor a vertex, or by a state string and then something
    that is no vertex, raises [TypeError], whatever comes after and before
    any state is checked.  Nothing is changed in either case. *)
Theorem X6_set_flow_chain_ill_formed_link
    (l : loc) (s : string) (y : pyval) (rest : list pyval) (w : World) :
  Edges_set_flow_chain [PyObj l; PyStr s] w = (Raise IndexError, w) ∧
  (isinstance_Vertex y = false →
     Edges_set_flow_chain (PyObj l :: PyStr s :: y :: rest) w
     = (Raise TypeError, w)) ∧
  (isinstance_Vertex y = false → isinstance_str y = false →
     Edges_set_flow_chain (PyObj l :: y :: rest) w = (Raise TypeError, w)).
Proof.
  split; [done|]. split.
  - intros Hy. rewrite set_flow_chain_named_link. unfold bind.
    by rewrite set_flow_chain_edge_not_vertex.
  - intros Hy Hstr. rewrite set_flow_chain_default_link by done. unfold bind.
    by rewrite set_flow_chain_edge_not_vertex.
Qed.

(** X7: a call of [set_flow_chain] in which no argument but perhaps the last
    is a vertex returns normally and changes nothing: so do the call without
    arguments and the call on a single argument. *)
Theorem X7_set_flow_chain_without_source (args : list pyval) (w : World) :
  Forall (λ x, isinstance_Vertex x = false) (removelast args) →
  Edges_set_flow_chain args w = (Ok tt, w).
Proof.
  unfold Edges_set_flow_chain. generalize 0%nat as n.
  induction (removelast args) as [|x items IH]; intros n Hall; [done|].
  apply Forall_cons in Hall as [Hx Hall].
  cbn [enumerate_from]. rewrite for_each_cons.
  assert (set_flow_chain_body args (n, x) w = (Ok tt, w)) as ->
    by (by destruct x).
  by apply IH.
Qed.

(** ** Relations that computations keep *)
Section Keeps.
Context (R : World → World → Prop).
Hypothesis R_refl : ∀ w, R w w.
Hypothesis R_trans : ∀ w1 w2 w3, R w1 w2 → R w2 w3 → R w1 w3.

Lemma keeps_reader {A} (c : M A) : (∀ w, (c w).2 = w) → keeps R c.
Proof. intros Hc w. by rewrite Hc. Qed.

Lemma keeps_ret {A} (a : A) : keeps R (ret a).
Proof. by apply keeps_reader. Qed.

Lemma keeps_raise {A} (e : exn) : keeps R (raise (A := A) e).
Proof. by apply keeps_reader. Qed.

Lemma keeps_gets {A} (f : World → A) : keeps R (gets f).
Proof. by apply keeps_reader. Qed.

Lemma keeps_deref (self : receiver) : keeps R (deref self).
Proof.
  apply keeps_reader. intros w. unfold deref.
  destruct self as [l|]; [|done]. by destruct (heap w !! l).
Qed.

Lemma keeps_bind {A B} (c : M A) (k : A → M B) :
  keeps R c → (∀ a, keeps R (k a)) → keeps R (c' <- c ;; k c').
Proof.
  intros Hc Hk w. unfold bind. specialize (Hc w).
  destruct (c w) as [[a|e] w1]; simpl in *; [|done].
  eapply R_trans; [exact Hc|apply Hk].
Qed.

Lemma keeps_for_each {A} (xs : list A) (body : A → M unit) :
  (∀ x, keeps R (body x)) → keeps R (for_each xs body).
Proof.
  intros Hbody. induction xs as [|x xs IH]; [apply keeps_ret|].
  simpl. by apply keeps_bind.
Qed.

Lemma keeps_run_each {A} (call : A → M unit) (xs : list A) w :
  (∀ x, keeps R (call x)) → R w (run_each call xs w).
Proof.
  intros Hcall. revert w.
  induction xs as [|x xs IH]; intros w; simpl; [done|].
  eapply R_trans; [apply Hcall|apply IH].
Qed.

End Keeps.

(** ** What the methods leave of the objects *)

Lemma object_kept_refl v : object_kept v v.
Proof. repeat split. by left. Qed.

Lemma object_kept_trans v1 v2 v3 :
  object_kept v1 v2 → object_kept v2 v3 → object_kept v1 v3.
Proof.
  intros (Hi & Hc & Hs & Hst) (Hi' & Hc' & Hs' & Hst').
  repeat split; try congruence.
  destruct Hst' as [Heq|Hin].
  - rewrite Heq. done.
  - right. by rewrite <- Hs.
Qed.

Lemma objects_kept_refl w : objects_kept w w.
Proof.
  split; [apply object_kept_refl|]. intros l.
  destruct (heap w !! l) as [v|] eqn:Hl; [|done].
  exists v. split; [done|apply object_kept_refl].
Qed.

Lemma objects_kept_trans w1 w2 w3 :
  objects_kept w1 w2 → objects_kept w2 w3 → objects_kept w1 w3.
Proof.
  intros [Hself Hheap] [Hself' Hheap']. split.
  { by eapply object_kept_trans. }
  intros l. specialize (Hheap l). specialize (Hheap' l).
  destruct (heap w1 !! l) as [v1|].
  - destruct Hheap as (v2 & Hl2 & Hkept). rewrite Hl2 in Hheap'.
    destruct Hheap' as (v3 & Hl3 & Hkept').
    exists v3. split; [done|]. by eapply object_kept_trans.
  - by rewrite Hheap in Hheap'.
Qed.

Lemma objects_kept_same_objects w w' :
  heap w' = heap w → self_vertex w' = self_vertex w → objects_kept w w'.
Proof.
  intros Hheap Hself. unfold objects_kept. rewrite Hheap, Hself.
  apply objects_kept_refl.
Qed.

Lemma keeps_objects_modify (g : World → World) :
  (∀ w, heap (g w) = heap w ∧ self_vertex (g w) = self_vertex w) →
  keeps objects_kept (modify g).
Proof.
  intros Hg w. destruct (Hg w). by apply objects_kept_same_objects.
Qed.

Lemma objects_kept_update self (f : Vertex → Vertex) w v :
  (deref self w).1 = Ok v → object_kept v (f v) →
  objects_kept w (mutate self f w).2.
Proof.
  unfold deref, mutate. destruct self as [l|]; simpl.
  - destruct (heap w !! l) as [v0|] eqn:Hl; [|done].
    intros [= ->] Hkept. split; [apply object_kept_refl|].
    intros l'. simpl. destruct (decide (l = l')) as [<-|Hne].
    + rewrite Hl, lookup_insert_eq. by eexists.
    + rewrite lookup_insert_ne by done.
      destruct (heap w !! l') as [v'|]; [|done].
      exists v'. split; [done|apply object_kept_refl].
  - intros [= <-] Hkept. split; [done|]. intros l. simpl.
    destruct (heap w !! l) as [v'|]; [|done].
    exists v'. split; [done|apply object_kept_refl].
Qed.

Lemma keeps_objects_mutate self (f : Vertex → Vertex) :
  (∀ v, object_kept v (f v)) → keeps objects_kept (mutate self f).
Proof.
  intros Hf w.
  destruct (deref self w) as [[v|e] w1] eqn:Hderef.
  - eapply objects_kept_update; [by rewrite Hderef|apply Hf].
  - unfold deref, mutate in *. destruct self as [l|]; [|done].
    destruct (heap w !! l); [done|]. apply objects_kept_refl.
Qed.

Ltac keeps_objects :=
  repeat first
    [ apply keeps_ret
    | apply keeps_raise
    | apply keeps_gets
    | apply keeps_deref
    | apply keeps_objects_modify; by intros
    | apply keeps_objects_mutate; intros; by repeat split; left
    | apply keeps_for_each; [apply objects_kept_refl
                            |apply objects_kept_trans|intros ?]
    | apply keeps_bind; [apply objects_kept_trans| |intros ?]
    | apply objects_kept_refl
    | apply keeps_reader; [apply objects_kept_refl|by intros]
    | case_match ].

Lemma keeps_objects_set_vertex_state self (new_state : string) :
  keeps objects_kept (Vertex_set_vertex_state self new_state).
Proof.
  intros w. unfold Vertex_set_vertex_state. unfold bind.
  destruct (deref self w) as [[v|e] w1] eqn:Hderef.
  2:{ assert (w1 = w) as ->; [|apply objects_kept_refl].
      unfold deref in Hderef. destruct self as [l|]; [|by simplify_eq].
      destruct (heap w !! l); by simplify_eq. }
  assert (w1 = w) as ->.
  { unfold deref in Hderef. destruct self as [l|]; [|by simplify_eq].
    destruct (heap w !! l); by simplify_eq. }
  destruct (decide (new_state ∉ possible_vertex_states v)) as [|Hin].
  - apply objects_kept_refl.
  - eapply objects_kept_update; [by rewrite Hderef|].
    repeat split. right. by apply dec_stable.
Qed.

Lemma keeps_objects_update_and_archive self
    (output_data : list (string * Value)) :
  keeps objects_kept (Vertex_update_and_archive self output_data).
Proof. unfold Vertex_update_and_archive. keeps_objects. Qed.

Lemma keeps_objects_vertices_setitem key (value : pyval) :
  keeps objects_kept (Vertices_setitem key value).
Proof. unfold Vertices_setitem. keeps_objects. Qed.

Lemma keeps_objects_edges_setitem key (value : pyval) :
  keeps objects_kept (Edges_setitem key value).
Proof. unfold Edges_setitem. keeps_objects. Qed.

Lemma keeps_objects_edges_initialize l :
  keeps objects_kept (Edges_initialize l).
Proof.
  unfold Edges_initialize. keeps_objects.
Qed.

Lemma keeps_objects_set_flow_chain args :
  keeps objects_kept (Edges_set_flow_chain args).
Proof.
  intros w. unfold Edges_set_flow_chain.
  pose proof (for_each_only_edges (enumerate_from 0 (removelast args)) _ w
                (set_flow_chain_body_only_edges args)) as Hframe.
  apply objects_kept_same_objects; by rewrite Hframe.
Qed.

Lemma keeps_objects_initialize_edges :
  keeps objects_kept Graph_initialize_edges.
Proof.
  unfold Graph_initialize_edges. keeps_objects.
Qed.

Lemma Graph_step_cursor_only w :
  (Graph_step w).2 = w ∨ ∃ next, Graph_step w = (Ok tt, with_active_vertex next w).
Proof.
  unfold Graph_step, Edges_getitem, Vertices_getitem. mrun.
  destruct (active_vertex w) as [l|]; [|by left].
  destruct (heap w !! l) as [v|]; [|by left].
  destruct (edges w !! vertex_name v) as [row|]; [|by left].
  destruct (row !! _vertex_state v) as [[next|]|]; [| |by left].
  - destruct (Dict.get (Some next) (vertices w)) as [l'|]; [|by left].
    right. by eexists.
  - right. by eexists.
Qed.

Lemma keeps_objects_step : keeps objects_kept Graph_step.
Proof.
  intros w. destruct (Graph_step_cursor_only w) as [->|[next ->]].
  - apply objects_kept_refl.
  - by apply objects_kept_same_objects.
Qed.

Lemma keeps_objects_reset : keeps objects_kept Graph_reset.
Proof. unfold Graph_reset, warn. keeps_objects. Qed.

Lemma keeps_objects_run_api (c : api_call) : keeps objects_kept (run_api c).
Proof.
  destruct c as [self s|self data|a|a|l|args| | |]; simpl.
  - apply keeps_objects_set_vertex_state.
  - apply keeps_objects_update_and_archive.
  - destruct a; apply keeps_objects_vertices_setitem.
  - destruct a; apply keeps_objects_edges_setitem.
  - apply keeps_objects_edges_initialize.
  - apply keeps_objects_set_flow_chain.
  - apply keeps_objects_initialize_edges.
  - apply keeps_objects_step.
  - apply keeps_objects_reset.
Qed.

Lemma objects_kept_run_api (calls : list api_call) w :
  objects_kept w (run_each run_api calls w).
Proof.
  apply keeps_run_each;
    [apply objects_kept_refl|apply objects_kept_trans
    |apply keeps_objects_run_api].
Qed.

(** X8: whatever calls are made, in whatever order and whether they return
    or raise, of the state setter, [update_and_archive], the assignments
    into [Vertices] and [Edges], [Edges.initialize], [set_flow_chain],
    [_initialize_edges], [step] and [reset]: no object appears or
    disappears, and every object, the graph included, keeps its input, its
    clock and its declared states. *)
Theorem X8_calls_keep_objects (calls : list api_call) (w : World) :
  (∀ l, is_Some (heap (run_each run_api calls w) !! l)
        ↔ is_Some (heap w !! l)) ∧
  (∀ l v v', heap w !! l = Some v →
     heap (run_each run_api calls w) !! l = Some v' →
     input v' = input v ∧ clock v' = clock v ∧
     possible_vertex_states v' = possible_vertex_states v) ∧
  input (self_vertex (run_each run_api calls w)) = input (self_vertex w) ∧
  clock (self_vertex (run_each run_api calls w)) = clock (self_vertex w) ∧
  possible_vertex_states (self_vertex (run_each run_api calls w))
  = possible_vertex_states (self_vertex w).
Proof.
  destruct (objects_kept_run_api calls w) as [(Hi & Hc & Hs & _) Hheap].
  split; [|split; [|done]].
  - intros l. specialize (Hheap l).
    destruct (heap w !! l) as [v|].
    + destruct Hheap as (v' & -> & _). split; by eauto.
    + rewrite Hheap. done.
  - intros l v v' Hl Hl'. specialize (Hheap l). rewrite Hl in Hheap.
    destruct Hheap as (v'' & Hl'' & Hi' & Hc' & Hs' & _).
    by simplify_eq.
Qed.

(** X9: if every object reports one of its declared states, it still does
    after any such calls: the setter is the only one of them that writes a
    state, and it writes declared states only. *)
Theorem X9_calls_keep_states_declared (calls : list api_call) (w : World) :
  states_declared w → states_declared (run_each run_api calls w).
Proof.
  intros [Hself Hall].
  destruct (objects_kept_run_api calls w) as [Hkept Hheap].
  assert (∀ v v', state_declared v → object_kept v v' → state_declared v')
    as Hstep.
  { intros v v' Hv (_ & _ & Hs & [Heq|Hin]); unfold state_declared in *.
    - by rewrite Heq, Hs.
    - by rewrite Hs. }
  split; [by eapply Hstep|].
  intros l v' Hl'. specialize (Hheap l).
  destruct (heap w !! l) as [v|] eqn:Hl.
  - destruct Hheap as (v'' & Hl'' & Hkept'). simplify_eq.
    eapply Hstep; [by eapply Hall|done].
  - congruence.
Qed.

(** ** What set_flow_chain does to the table at most *)

Lemma table_grows_refl w : table_grows w w.
Proof.
  split; [apply only_edges_refl|]. split; [done|].
  intros k row Hrow. by exists row.
Qed.

Lemma table_grows_trans w1 w2 w3 :
  table_grows w1 w2 → table_grows w2 w3 → table_grows w1 w3.
Proof.
  intros (Hframe & Hdom & Hrows) (Hframe' & Hdom' & Hrows').
  split; [by eapply only_edges_trans|]. split; [congruence|].
  intros k row Hrow.
  destruct (Hrows k row Hrow) as (row2 & Hrow2 & Hsub).
  destruct (Hrows' k row2 Hrow2) as (row3 & Hrow3 & Hsub').
  exists row3. split; [done|]. by etrans.
Qed.

Lemma keeps_table_set_flow_chain_edge l (state : string) (y : pyval) :
  keeps table_grows (set_flow_chain_edge l state y).
Proof.
  intros w.
  destruct (set_flow_chain_edge_cases l state y w)
    as [->|(l' & v & v' & row & _ & _ & _ & _ & Hrow & ->)];
    [apply table_grows_refl|].
  split; [done|]. simpl. split.
  - apply dom_insert_lookup_L. by eexists.
  - intros k row0 Hrow0. destruct (decide (vertex_name v = k)) as [<-|Hne].
    + rewrite lookup_insert_eq. eexists. split; [done|].
      assert (row0 = row) as -> by congruence.
      rewrite dom_insert_L. apply union_subseteq_r.
    + rewrite lookup_insert_ne by done. by exists row0.
Qed.

(** X10: whatever its arguments and whether it returns or raises,
    [set_flow_chain] writes to the table only, and there it neither adds nor
    removes a row nor removes an entry of a row: every row keeps its states,
    and may have gained some. *)
Theorem X10_set_flow_chain_keeps_rows (args : list pyval) (w : World) :
  only_edges w (Edges_set_flow_chain args w).2 ∧
  dom (edges (Edges_set_flow_chain args w).2) = dom (edges w) ∧
  ∀ k (row : gmap string pykey), edges w !! k = Some row →
    ∃ row' : gmap string pykey,
      edges (Edges_set_flow_chain args w).2 !! k = Some row' ∧
      dom row ⊆ dom row'.
Proof.
  change (table_grows w (Edges_set_flow_chain args w).2). revert w.
  change (keeps table_grows (Edges_set_flow_chain args)).
  unfold Edges_set_flow_chain.
  apply keeps_for_each; [apply table_grows_refl|apply table_grows_trans|].
  intros [n vertex]. unfold set_flow_chain_body, tuple_getitem.
  destruct vertex as [| | |l];
    try (apply keeps_ret; apply table_grows_refl).
  apply keeps_bind; [apply table_grows_trans| |].
  { apply keeps_reader; [apply table_grows_refl|].
    intros w. by destruct (args !! (n + 1)%nat). }
  intros next_obj.
  destruct next_obj as [|state| |l'];
    try apply keeps_table_set_flow_chain_edge.
  apply keeps_bind; [apply table_grows_trans| |].
  { apply keeps_reader; [apply table_grows_refl|].
    intros w. by destruct (args !! (n + 2)%nat). }
  intros next_vertex. apply keeps_table_set_flow_chain_edge.
Qed.

(** ** _initialize_edges on any collection *)

Lemma initial_rows_snoc (h : gmap loc Vertex) (ls : list loc) l
    (es : gmap pykey (gmap string pykey)) :
  initial_rows h (ls ++ [l]) es =
  match h !! l with
  | Some v =>
      <[vertex_name v := dead_end (possible_vertex_states v)]>
        (initial_rows h ls es)
  | None => initial_rows h ls es
  end.
Proof. unfold initial_rows. by rewrite foldl_app. Qed.

Lemma initial_rows_named (h : gmap loc Vertex) (ls : list loc)
    (es : gmap pykey (gmap string pykey)) l v :
  l ∈ ls → h !! l = Some v →
  ∃ l' v', l' ∈ ls ∧ h !! l' = Some v' ∧ vertex_name v' = vertex_name v ∧
    ∀ es', initial_rows h ls es' !! vertex_name v
           = Some (dead_end (possible_vertex_states v')).
Proof.
  revert l v. induction ls as [|l0 ls IH] using rev_ind; intros l v Hin Hl.
  { by apply not_elem_of_nil in Hin. }
  destruct (h !! l0) as [v0|] eqn:Hl0.
  - destruct (decide (vertex_name v0 = vertex_name v)) as [Heq|Hne].
    + exists l0, v0. split; [apply elem_of_app; right; left|].
      split; [done|]. split; [done|]. intros es'.
      rewrite initial_rows_snoc, Hl0, <- Heq. by rewrite lookup_insert_eq.
    + apply elem_of_app in Hin as [Hin|Hin%list_elem_of_singleton];
        [|congruence].
      destruct (IH l v Hin Hl) as (l' & v' & Hin' & Hl' & Hname & Hrow).
      exists l', v'. split; [apply elem_of_app; by left|].
      split; [done|]. split; [done|]. intros es'.
      rewrite initial_rows_snoc, Hl0. by rewrite lookup_insert_ne.
  - apply elem_of_app in Hin as [Hin|Hin%list_elem_of_singleton];
      [|congruence].
    destruct (IH l v Hin Hl) as (l' & v' & Hin' & Hl' & Hname & Hrow).
    exists l', v'. split; [apply elem_of_app; by left|].
    split; [done|]. split; [done|]. intros es'.
    by rewrite initial_rows_snoc, Hl0.
Qed.

Lemma initial_rows_idempotent (h : gmap loc Vertex) (ls : list loc)
    (es : gmap pykey (gmap string pykey)) :
  initial_rows h ls (initial_rows h ls es) = initial_rows h ls es.
Proof.
  apply map_eq. intros k.
  destruct (decide (Exists (λ l, vertex_name <$> h !! l = Some k) ls))
    as [Hex|Hnone].
  - apply Exists_exists in Hex as (l & Hin & Hname).
    destruct (h !! l) as [v|] eqn:Hl; [|done]. injection Hname as <-.
    destruct (initial_rows_named h ls es l v Hin Hl)
      as (l' & v' & _ & _ & _ & Hrow).
    by rewrite !Hrow.
  - assert (∀ l v, l ∈ ls → h !! l = Some v → vertex_name v ≠ k) as Hno.
    { intros l v Hin Hl Hname. apply Hnone, Exists_exists.
      exists l. split; [done|]. by rewrite Hl, <- Hname. }
    by rewrite !initial_rows_other.
Qed.

(** X11: on a collection all of whose references are to objects,
    [_initialize_edges] returns normally and writes to the table only.  It
    leaves alone the rows under names that no registered vertex bears; under
    the name of every registered vertex it leaves a row that maps to [None]
    the declared states of a registered vertex of that name, whatever
    successors had been wired there.  Running it a second time changes
    nothing more. *)
Theorem X11_initialize_edges_resets_rows (w : World) :
  (∀ l, registered w l → is_Some (heap w !! l)) →
  ∃ w1,
    Graph_initialize_edges w = (Ok tt, w1) ∧
    only_edges w w1 ∧
    (∀ k, (∀ l v, registered w l → heap w !! l = Some v →
                  vertex_name v ≠ k) →
          edges w1 !! k = edges w !! k) ∧
    (∀ l v, registered w l → heap w !! l = Some v →
       ∃ l' v', registered w l' ∧ heap w !! l' = Some v' ∧
         vertex_name v' = vertex_name v ∧
         edges w1 !! vertex_name v
         = Some (dead_end (possible_vertex_states v'))) ∧
    Graph_initialize_edges w1 = (Ok tt, w1).
Proof.
  intros Hclosed.
  assert (∀ w0, heap w0 = heap w → vertices w0 = vertices w →
            Graph_initialize_edges w0 =
              (Ok tt,
               with_edges
                 (initial_rows (heap w) (Dict.values (vertices w)) (edges w0))
                 w0)) as Hrun.
  { intros w0 Hheap Hvertices. unfold Graph_initialize_edges, bind, gets.
    simpl. rewrite for_each_initialize; rewrite Hheap, Hvertices; [done|].
    apply Hclosed. }
  eexists. split; [by apply Hrun|]. split; [done|]. simpl.
  split; [intros k Hk; by apply initial_rows_other|]. split.
  - intros l v Hreg Hl.
    destruct (initial_rows_named (heap w) (Dict.values (vertices w)) (edges w)
                l v Hreg Hl) as (l' & v' & Hreg' & Hl' & Hname & Hrow).
    exists l', v'. by rewrite Hrow.
  - rewrite Hrun by done. simpl. by rewrite initial_rows_idempotent.
Qed.

(** ** step *)

(** X12: [step] changes nothing but the cursor.  With an empty cursor it
    returns at once.  When it raises, it has changed nothing, and what it
    raises is [KeyError], except for a cursor that refers to no object.  When
    it returns normally from a vertex, the cursor is empty or on a vertex of
    the collection. *)
Theorem X12_step_moves_cursor_only (w : World) :
  (active_vertex w = None → Graph_step w = (Ok tt, w)) ∧
  (∀ e w', Graph_step w = (Raise e, w') →
     w' = w ∧
     (e = KeyError ∨
      e = ReferenceError ∧
      ∃ l, active_vertex w = Some l ∧ heap w !! l = None)) ∧
  (∀ w', Graph_step w = (Ok tt, w') →
     w' = with_active_vertex (active_vertex w') w ∧
     (is_Some (active_vertex w) →
      ∀ l', active_vertex w' = Some l' → registered w' l')).
Proof.
  unfold Graph_step, Edges_getitem, Vertices_getitem. mrun.
  destruct (active_vertex w) as [l|] eqn:Hactive.
  2:{ split; [done|]. split; [done|]. intros w' [= <-].
      split; [destruct w; simpl in *; by subst|]. by intros [? ?]. }
  split; [done|].
  destruct (heap w !! l) as [v|] eqn:Hl.
  2:{ split; [|done]. intros e w' [= <- <-]. split; [done|]. right.
      split; [done|]. by exists l. }
  destruct (edges w !! vertex_name v) as [row|].
  2:{ split; [|done]. intros e w' [= <- <-]. split; [done|]. by left. }
  destruct (row !! _vertex_state v) as [[next|]|].
  - destruct (Dict.get (Some next) (vertices w)) as [l'|] eqn:Hget.
    + split; [done|]. intros w' [= <-]. split; [done|]. simpl.
      intros _ l'' [= <-].
      eapply Dict_elem_values, Dict_get_Some_elem, Hget.
    + split; [|done]. intros e w' [= <- <-]. split; [done|]. by left.
  - split; [done|]. intros w' [= <-]. by split.
  - split; [|done]. intros e w' [= <- <-]. split; [done|]. by left.
Qed.

(** ** The loop of function, and reset after it *)

Lemma Graph_function_loop_completed (fuel : nat) w (executed : list loc) w' :
  Graph_function_loop fuel w = Some (executed, (Ok tt, w')) →
  active_vertex w' = None ∧ (length executed ≤ fuel)%nat.
Proof.
  revert w executed. induction fuel as [|fuel IH]; intros w executed; simpl.
  - destruct (active_vertex w) eqn:Hactive; [done|].
    intros [= <- <-]. split; [done|simpl; lia].
  - destruct (active_vertex w) as [l|] eqn:Hactive.
    2:{ intros [= <- <-]. split; [done|simpl; lia]. }
    destruct ((Vertex_execute l;; Graph_step) w) as [[[]|e] w1]; [|done].
    destruct (Graph_function_loop fuel w1) as [[executed1 out]|] eqn:Hloop;
      [|done].
    intros [= <- ->]. destruct (IH _ _ Hloop) as [Hnone Hlen].
    split; [done|simpl; lia].
Qed.

(** X13: whatever the graph, when the loop of [function] ends normally the
    cursor is empty, and no more vertices were executed than the fuel
    allows; so a [reset()] that follows returns normally and puts the cursor
    on the restarting vertex. *)
Theorem X13_completed_run_can_be_reset
    (fuel : nat) (w : World) (executed : list loc) (w' : World) :
  Graph_function_loop fuel w = Some (executed, (Ok tt, w')) →
  active_vertex w' = None ∧
  (length executed ≤ fuel)%nat ∧
  ∃ w'', Graph_reset w' = (Ok tt, w'') ∧
         active_vertex w'' = restarting_vertex w'.
Proof.
  intros Hloop. destruct (Graph_function_loop_completed _ _ _ _ Hloop)
    as [Hnone Hlen].
  split; [done|]. split; [done|].
  unfold Graph_reset. mrun. rewrite Hnone. simpl.
  destruct (restarting_vertex w') eqn:Hrestart; simpl; by eexists.
Qed.

(** ** __init__ with a starting vertex, and with a set-up that raises *)

(** X14: when the set-up part of [Graph.__init__] raises, [__init__] raises
    the same and does nothing more.  When it returns having named a starting
    vertex, [__init__] returns normally, logs nothing, and puts the cursor
    on the starting vertex. *)
Theorem X14_init_starts_at_starting_vertex (w0 w1 : World) :
  (∀ e, Graph_init_set_up w0 = (Raise e, w1) →
        Graph_init w0 = (Raise e, w1)) ∧
  (∀ l, Graph_init_set_up w0 = (Ok tt, w1) →
        starting_vertex w1 = Some l →
        Graph_init w0 = (Ok tt, with_active_vertex (Some l) w1)).
Proof.
  split.
  - intros e Hsetup. rewrite Graph_init_unfold. unfold bind at 1.
    by rewrite Hsetup.
  - intros l Hsetup Hstart. rewrite Graph_init_unfold. unfold bind at 1.
    rewrite Hsetup. mrun. simpl. rewrite Hstart. simpl. by rewrite Hstart.
Qed.

(** ** Graphs that run for ever *)

Lemma follows_row w l l' :
  follows w l l' = true →
  ∃ name state (row : gmap string pykey) next,
    name_state w l = Some (name, state) ∧ edges w !! name = Some row ∧
    row !! state = Some (Some next) ∧
    Dict.get (Some next) (vertices w) = Some l'.
Proof.
  unfold follows.
  destruct (name_state w l) as [[name state]|]; [|done].
  destruct (edges w !! name) as [row|] eqn:Hrow; [|done].
  destruct (row !! state) as [[next|]|] eqn:Hnext; [|done|done].
  intros Hget%bool_decide_eq_true. exists name, state, row, next.
  by repeat split.
Qed.

Lemma Graph_function_loop_cycle (w0 : World) (cycle : list loc) :
  (∀ l, l ∈ cycle → ∃ l', l' ∈ cycle ∧ follows w0 l l' = true) →
  ∀ (fuel : nat) l w,
    l ∈ cycle → same_flow w0 w → active_vertex w = Some l →
    normal_turns fuel w →
    Graph_function_loop fuel w = None.
Proof.
  intros Hcycle.
  induction fuel as [|fuel IH]; intros l w Hin Hflow Hactive Hturns;
    cbn [Graph_function_loop]; rewrite Hactive; [done|].
  destruct (Hcycle l Hin) as (l' & Hin' & Hfollows).
  destruct (follows_row w0 l l' Hfollows)
    as (name & state & row & next & Hns & Hrow & Hnext & Hget).
  destruct (Graph_function_turn w0 w l name state row (Some next) fuel)
    as (w1 & Hflow1 & Hturn & Hturns'); try done.
  rewrite Hturn, Hget in Hturns' |- *.
  assert (same_flow w0 (with_active_vertex (Some l') w1)) as Hflow2.
  { eapply same_flow_trans; [exact Hflow1|].
    apply same_flow_with_active_vertex. }
  by rewrite (IH l' (with_active_vertex (Some l') w1) Hin' Hflow2 eq_refl).
Qed.

(** X15: a graph with the cursor inside a set of vertices each of which, at
    the state it reports, is followed by a vertex of the set, does not leave
    the loop of [function] as long as the calls of [execute] in its run
    return normally and leave names, states, table and cursor alone: when
    the first [fuel] turns of the run are such, the loop is still running
    after them, whatever [fuel] is.  The premise is on the turns of this run
    only. *)
Theorem X15_cycle_never_ends
    (w0 : World) (cycle : list loc) (l : loc) (fuel : nat) :
  active_vertex w0 = Some l →
  l ∈ cycle →
  (∀ l, l ∈ cycle → ∃ l', l' ∈ cycle ∧ follows w0 l l' = true) →
  normal_turns fuel w0 →
  Graph_function_loop fuel w0 = None ∧ Graph_function fuel w0 = None.
Proof.
  intros Hactive Hin Hcycle Hturns.
  assert (Graph_function_loop fuel w0 = None) as Hloop.
  { apply (Graph_function_loop_cycle w0 cycle Hcycle fuel l w0
             Hin (same_flow_refl w0) Hactive Hturns). }
  split; [done|]. unfold Graph_function. by rewrite Hloop.
Qed.

(** ** execute and update_and_archive *)

Lemma with_output_output v : with_output (output v) v = v.
Proof. by destruct v. Qed.

(** X16: [update_and_archive] on a vertex pushes the items of the output
    data on the vertex's output in their order.  It returns normally when
    every push does; at the first push that raises it raises the same and
    stops, and the pushes made before stay.  In either case nothing changes
    but the output of that vertex. *)
Theorem X16_update_and_archive_pushes_in_order
    (l : loc) (v : Vertex) (output_data : list (string * Value))
    (w : World) :
  heap w !! l = Some v →
  Vertex_update_and_archive (Child l) output_data w =
    ((push_all (output v) output_data).1,
     with_heap
       (<[l := with_output (push_all (output v) output_data).2 v]> (heap w))
       w).
Proof.
  revert v w. unfold Vertex_update_and_archive.
  induction output_data as [|item output_data IH]; intros v w Hl.
  { simpl. unfold ret. rewrite with_output_output, insert_id by done.
    by destruct w. }
  rewrite for_each_cons. mrun. rewrite Hl. cbn [push_all].
  destruct (push (output v) item.1 item.2) as [o|e].
  - rewrite Hl. rewrite (IH (with_output o v)); simpl.
    + by rewrite insert_insert_eq.
    + by rewrite lookup_insert_eq.
  - simpl. rewrite with_output_output, insert_id by done. by destruct w.
Qed.

(** X17: [execute] on a vertex whose input does not resolve raises what
    [resolve] raises, without calling the vertex's function and without
    changing anything.  When the input resolves, [execute] is the vertex's
    function on the resolved input followed by [update_and_archive] of what
    it returns: resolving the input a first time for the printed message
    makes no difference, and an exception of the function is raised before
    anything is pushed. *)
Theorem X17_execute_resolves_then_runs (l : loc) (v : Vertex) (w : World) :
  heap w !! l = Some v →
  (∀ e, resolve (input v) w = Raise e →
        Vertex_execute l w = (Raise e, w)) ∧
  (∀ kwargs, resolve (input v) w = Ok kwargs →
     Vertex_execute l w =
       (output_data <- function l kwargs ;;
        Vertex_update_and_archive (Child l) output_data) w) ∧
  (∀ kwargs e w1, resolve (input v) w = Ok kwargs →
     function l kwargs w = (Raise e, w1) →
     Vertex_execute l w = (Raise e, w1)).
Proof.
  intros Hl.
  assert (∀ kwargs, resolve (input v) w = Ok kwargs →
     Vertex_execute l w =
       (output_data <- function l kwargs ;;
        Vertex_update_and_archive (Child l) output_data) w) as Hrun.
  { intros kwargs Hres. unfold Vertex_execute, Vertex_resolve_input.
    mrun. rewrite Hl. simpl. rewrite Hres. rewrite Hl. simpl.
    by rewrite Hres. }
  split; [|split; [exact Hrun|]].
  - intros e Hres. unfold Vertex_execute, Vertex_resolve_input.
    mrun. rewrite Hl. simpl. by rewrite Hres.
  - intros kwargs e w1 Hres Hfun. rewrite (Hrun kwargs Hres).
    unfold bind. by rewrite Hfun.
Qed.

(** ** Filling the collection *)

Lemma registered_after_setitem key l v w l' :
  heap w !! l = Some v →
  registered (Vertices_setitem key (PyObj l) w).2 l' →
  l' = l ∨ registered w l'.
Proof.
  intros Hl. rewrite (Vertices_setitem_vertex key l v) by done.
  unfold registered. simpl.
  intros [k Hin]%Dict_values_elem.
  apply Dict_set_elem in Hin as [[_ ->]|Hin]; [by left|].
  right. by eapply Dict_elem_values.
Qed.

(** X18: storing objects in [Vertices] keeps names and keys synchronised as
    long as no object is stored twice: after distinct objects that the
    collection does not hold yet are stored one after the other, under any
    keys, repeated or not, the collection again holds no key twice and every
    vertex in it bears its key as its name. *)
Theorem X18_storing_distinct_objects_keeps_sync
    (items : list (pykey * loc)) (w : World) :
  Vertices_synced w →
  NoDup items.*2 →
  (∀ k l, (k, l) ∈ items → is_Some (heap w !! l) ∧ ¬ registered w l) →
  Vertices_synced (Vertices_store items w).
Proof.
  unfold Vertices_store. revert w.
  induction items as [|[key l] items IH]; intros w Hsync Hnd Hnew; [done|].
  rewrite fmap_cons in Hnd. apply NoDup_cons in Hnd as [Hfresh Hnd].
  destruct (Hnew key l) as [[v Hl] Hunreg]; [left|].
  change (run_each _ ((key, l) :: items) w)
    with (run_each
            (λ item : pykey * loc, Vertices_setitem item.1 (PyObj item.2))
            items (Vertices_setitem key (PyObj l) w).2).
  apply IH.
  - by apply (Vertices_setitem_synced key l v).
  - done.
  - intros k' l' Hin'.
    assert (l' ≠ l) as Hne.
    { intros ->. apply Hfresh. apply list_elem_of_fmap. by exists (k', l). }
    destruct (Hnew k' l') as [[v' Hl'] Hunreg']; [by right|]. split.
    + rewrite (Vertices_setitem_vertex key l v) by done. simpl.
      rewrite lookup_insert_ne by done. by eexists.
    + intros [?|?]%(registered_after_setitem key l v); done.
Qed.

End MoreFacts.

(** * The theorems at concrete graphs *)
Section Concrete.
Import Example.
#[local] Existing Instance unit_io.
#[local] Existing Instance idle.

(** Two vertices registered once each, then chained. *)
Lemma C2_witness :
  Vertices_synced two_registered ∧
  ∃ w1,
    Graph_initialize_edges two_registered = (Ok tt, w1) ∧
    rows_complete
      (run_each Edges_set_flow_chain [[PyObj 1%positive; PyObj 2%positive]]
         w1).
Proof.
  assert (Vertices_synced two_registered) as Hsync.
  { apply Vertices_synced_check_sound. vm_compute. reflexivity. }
  split; [exact Hsync|].
  destruct (C2_rows_cover_declared_states two_registered
              [[PyObj 1%positive; PyObj 2%positive]] Hsync)
    as (w1 & Hinit & _ & _ & _ & Hrows).
  - constructor; [|constructor].
    apply over_registered_check_sound. vm_compute. reflexivity.
  - exists w1. split; [exact Hinit|exact Hrows].
Defined.

(** The vertex stored as [a] and again as [b], with a decision vertex stored
    over it as [b]: [_initialize_edges] leaves, under the plain vertex's
    name, the row of the decision vertex.  And a vertex object that is not
    registered but bears the name [a]: [set_flow_chain] on it adds its state
    [x] to the row of the registered vertex [a]. *)
Lemma C2_counterexample :
  (Graph_initialize_edges shadowed_registered = (Ok tt, shadowed) ∧
   ¬ (∀ k l v, (k, l) ∈ vertices shadowed → heap shadowed !! l = Some v →
        ∃ row : gmap string pykey,
          edges shadowed !! vertex_name v = Some row ∧
          dom row = list_to_set (possible_vertex_states v))) ∧
  (Vertices_synced namesake_registered ∧
   rows_complete (Graph_initialize_edges namesake_registered).2 ∧
   ¬ rows_complete namesake_wired).
Proof.
  split; [split; [vm_compute; reflexivity|]|].
  - intros Hclaim.
    destruct (Hclaim (Some "a"%string) 1%positive
                (with_vertex_name (Some "b"%string) plain))
      as (row & Hrow & Hdom).
    + change (vertices shadowed)
        with [(Some "a"%string, 1%positive); (Some "b"%string, 2%positive)].
      left.
    + vm_compute. reflexivity.
    + assert (edges shadowed !! Some "b"%string
              = Some (dead_end ["true"; "false"]%string)) as Hb
        by (vm_compute; reflexivity).
      simpl in Hrow. rewrite Hb in Hrow. injection Hrow as <-.
      rewrite dead_end_dom in Hdom.
      assert ("next"%string ∈ (list_to_set ["true"; "false"]%string
                                 : gset string)) as Hin.
      { rewrite Hdom. apply elem_of_list_to_set. left. }
      apply elem_of_list_to_set in Hin.
      apply elem_of_cons in Hin as [Hin|Hin]; [discriminate|].
      apply elem_of_cons in Hin as [Hin|Hin]; [discriminate|].
      by apply not_elem_of_nil in Hin.
  - assert (Vertices_synced namesake_registered) as Hsync.
    { apply Vertices_synced_check_sound. vm_compute. reflexivity. }
    split; [exact Hsync|].
    split; [by apply Graph_initialize_edges_wired|].
    intros Hrows.
    destruct (Hrows (Some "a"%string) 1%positive
                (with_vertex_name (Some "a"%string) plain))
      as (row & Hrow & Hdom).
    + change (vertices namesake_wired)
        with [(Some "a"%string, 1%positive); (Some "b"%string, 2%positive)].
      left.
    + vm_compute. reflexivity.
    + assert (edges namesake_wired !! Some "a"%string
              = Some (<["x"%string := Some "b"%string]>
                        (dead_end ["next"%string]))) as Ha
        by (vm_compute; reflexivity).
      rewrite Ha in Hrow. injection Hrow as <-.
      assert ("x"%string ∈ (list_to_set ["next"%string] : gset string))
        as Hin.
      { change ["next"%string]
          with (possible_vertex_states
                  (with_vertex_name (Some "a"%string) plain)).
        rewrite <- Hdom. apply elem_of_dom. rewrite lookup_insert_eq.
        by eexists. }
      apply elem_of_list_to_set in Hin.
      apply elem_of_cons in Hin as [Hin|Hin]; [discriminate|].
      by apply not_elem_of_nil in Hin.
Qed.

(** Storing a vertex as [a]; a non-vertex, another vertex, and the vertex
    again under the same key are stored afterwards. *)
Lemma C3_witness :
  vertex_name <$>
    heap (run_each Vertices_assign
            [SetItem None (PyInt 3); SetAttr "b" (PyObj 2%positive);
             SetItem (Some "a"%string) (PyObj 1%positive)]
            (Vertices_assign (SetAttr "a" (PyObj 1%positive))
               (blank {[ 1%positive := plain; 2%positive := plain ]})).2)
    !! 1%positive
  = Some (Some "a"%string).
Proof.
  apply (C3_insertion_names_vertex
           (blank {[ 1%positive := plain; 2%positive := plain ]})
           1%positive plain (SetAttr "a" (PyObj 1%positive))).
  - vm_compute. reflexivity.
  - reflexivity.
  - repeat constructor; simpl; intros; (discriminate || reflexivity).
Defined.

(** A vertex that executes keeps its clock at 0. *)
Lemma C5_counterexample :
  heap (blank {[ 1%positive := plain ]}) !! 1%positive = Some plain ∧
  (Vertex_execute 1%positive (blank {[ 1%positive := plain ]})).1 = Ok tt ∧
  clock <$>
    heap (Vertex_execute 1%positive (blank {[ 1%positive := plain ]})).2
      !! 1%positive
  ≠ Some (clock plain + 1).
Proof.
  split; [vm_compute; reflexivity|].
  split; [vm_compute; reflexivity|].
  vm_compute. discriminate.
Qed.

Lemma bad_not_declared : "bad"%string ∉ ["next"%string].
Proof.
  intros Hin. apply elem_of_cons in Hin as [Hin|Hin]; [discriminate|].
  by apply not_elem_of_nil in Hin.
Qed.

(** [set_flow_chain(a, "bad", b)] on plain vertices. *)
Lemma C6_witness :
  Edges_set_flow_chain
    [PyObj 1%positive; PyStr "bad"; PyObj 2%positive] two_initialized
  = (Raise KeyError, two_initialized).
Proof.
  apply (C6_undeclared_state_rejected
           [PyObj 1%positive; PyStr "bad"; PyObj 2%positive] 0
           1%positive 2%positive "bad"
           (with_vertex_name (Some "a"%string) plain) two_initialized).
  - reflexivity.
  - reflexivity.
  - reflexivity.
  - vm_compute. reflexivity.
  - exact bad_not_declared.
  - reflexivity.
Defined.

(** A graph whose set-up registers and chains two vertices and names no
    starting vertex. *)
Lemma C7_witness :
  Graph_init (mt := unstarted)
    (blank {[ 1%positive := plain; 2%positive := plain ]})
  = (Ok tt,
     with_active_vertex None
       (with_warnings [StartingVertexNotSet None]
          (Graph_init_set_up (mt := unstarted)
             (blank {[ 1%positive := plain; 2%positive := plain ]})).2)) ∧
  ∀ fuel, ∃ outcome,
    Graph_execute (mt := unstarted) fuel
      (with_active_vertex None
         (with_warnings [StartingVertexNotSet None]
            (Graph_init_set_up (mt := unstarted)
               (blank {[ 1%positive := plain; 2%positive := plain ]})).2))
    = Some ([], outcome).
Proof.
  destruct (C7_no_starting_vertex (mt := unstarted)
              (blank {[ 1%positive := plain; 2%positive := plain ]})
              (Graph_init_set_up (mt := unstarted)
                 (blank {[ 1%positive := plain; 2%positive := plain ]})).2)
    as (Hinit & _ & Hrun).
  - vm_compute. reflexivity.
  - vm_compute. reflexivity.
  - split; [exact Hinit|]. intros fuel. apply Hrun.
Defined.

(** A string is no vertex. *)
Lemma C8_witness :
  isinstance_Vertex (PyStr "v") = false ∧
  Vertices_setitem (Some "a"%string) (PyStr "v") two_registered
    = (Raise TypeError, two_registered) ∧
  Edges_setitem (Some "a"%string) (PyStr "v") two_registered
    = (Raise TypeError, two_registered).
Proof.
  split; [reflexivity|].
  destruct (C8_non_vertex_rejected (Some "a"%string) (PyStr "v")
              two_registered eq_refl) as (Hvertices & Hedges & _).
  split; [exact Hvertices|exact Hedges].
Defined.

(** [step] on the chain [a -> b], the cursor on [a]. *)
Lemma C9_witness :
  ∃ next : option loc,
    Graph_step two_chain = (Ok tt, with_active_vertex next two_chain) ∧
    ∀ l', next = Some l' → registered two_chain l'.
Proof.
  apply (C9_step_lookups_succeed two_registered
           [[PyObj 1%positive; PyObj 2%positive]] two_chain 1%positive
           (with_vertex_name (Some "a"%string) plain)).
  - apply Vertices_synced_check_sound. vm_compute. reflexivity.
  - constructor; [|constructor].
    apply over_registered_check_sound. vm_compute. reflexivity.
  - split; [reflexivity|]. split; [reflexivity|].
    intros l v Hl. exists v. split; [exact Hl|]. split; reflexivity.
  - reflexivity.
  - apply (Dict_elem_values (Some "a"%string)).
    change (vertices two_chain)
      with [(Some "a"%string, 1%positive); (Some "b"%string, 2%positive)].
    left.
  - vm_compute. reflexivity.
  - left.
Defined.

(** A decision vertex that has not reported a state: [step] looks its row
    up at the state [next], which the row does not have, and so does the loop
    of [function] when the vertex's function assigns no state.  And the
    plain vertex stored as [a] and as [b] with a decision vertex stored over
    it as [b]: [step] finds under its name the row of the decision vertex. *)
Lemma C9_counterexample :
  (Vertices_synced undecided_registered ∧
   Forall (over_registered undecided_registered) undecided_wiring ∧
   undecided =
     with_active_vertex (Some 1%positive)
       (run_each Edges_set_flow_chain undecided_wiring
          (Graph_initialize_edges undecided_registered).2) ∧
   registered undecided 1%positive ∧
   Graph_step undecided = (Raise KeyError, undecided) ∧
   Graph_function_loop 1 undecided
     = Some ([1%positive], (Raise KeyError, undecided))) ∧
  (registered shadowed 1%positive ∧
   (∃ v, heap shadowed !! 1%positive = Some v ∧
         _vertex_state v ∈ possible_vertex_states v) ∧
   Graph_step (with_active_vertex (Some 1%positive) shadowed)
     = (Raise KeyError, with_active_vertex (Some 1%positive) shadowed)).
Proof.
  split.
  - split; [apply Vertices_synced_check_sound; vm_compute; reflexivity|].
    split.
    { constructor; [|constructor].
      apply over_registered_check_sound. vm_compute. reflexivity. }
    split; [reflexivity|].
    split.
    { apply (Dict_elem_values (Some "check"%string)).
      change (vertices undecided)
        with [(Some "check"%string, 1%positive);
              (Some "done"%string, 2%positive)].
      left. }
    split; vm_compute; reflexivity.
  - split.
    { apply (Dict_elem_values (Some "a"%string)).
      change (vertices shadowed)
        with [(Some "a"%string, 1%positive); (Some "b"%string, 2%positive)].
      left. }
    split.
    { exists (with_vertex_name (Some "b"%string) plain).
      split; [vm_compute; reflexivity|left]. }
    vm_compute. reflexivity.
Qed.

(** The row of [a] in the chain [a -> b], established again. *)
Lemma C10_witness :
  edges two_chain !! Some "a"%string = Some {[ "next"%string := Some "b"%string ]} ∧
  ∃ w',
    Edges_initialize 1%positive two_chain = (Ok tt, w') ∧
    edges w' !! Some "a"%string = Some (dead_end ["next"%string]).
Proof.
  assert (edges two_chain !! Some "a"%string
          = Some {[ "next"%string := Some "b"%string ]}) as Hold
    by (vm_compute; reflexivity).
  split; [exact Hold|].
  destruct (C10_reinsertion_resets_row two_chain 1%positive
              (with_vertex_name (Some "a"%string) plain)
              {[ "next"%string := Some "b"%string ]})
    as (w' & _ & Hinit & _ & Hrow & _).
  - vm_compute. reflexivity.
  - exact Hold.
  - exists w'. split; [exact Hinit|exact Hrow].
Defined.

End Concrete.

(** * The further facts at concrete graphs *)
Section MoreConcrete.
Import Example Scenario.
#[local] Existing Instance unit_io.
#[local] Existing Instance idle.

(** A decision vertex is given the state [true]. *)
Lemma X1_witness :
  ∃ w',
    Vertex_set_vertex_state (Child 1%positive) "true"
      (blank {[ 1%positive := decision ]}) = (Ok tt, w') ∧
    Vertex_vertex_state (Child 1%positive) w' = (Ok "true"%string, w').
Proof.
  destruct (X1_vertex_state_set_then_get 1%positive decision "true"
              (blank {[ 1%positive := decision ]})) as [Hyes _].
  - vm_compute. reflexivity.
  - destruct Hyes as (w' & Hset & Hget & _); [left|].
    exists w'. split; [exact Hset|exact Hget].
Defined.

(** The row of the vertex [a] requested under the key [b]. *)
Lemma X2_witness :
  Edges_setitem (Some "b"%string) (PyObj 1%positive) two_registered
  = (Raise ValueError, two_registered).
Proof.
  apply (X2_edges_key_is_vertex_name 1%positive
           (with_vertex_name (Some "a"%string) plain)).
  - vm_compute. reflexivity.
  - discriminate.
Defined.

(** A vertex stored as [a] and looked up. *)
Lemma X3_witness :
  ∃ w',
    Vertices_setitem (Some "a"%string) (PyObj 1%positive)
      (blank {[ 1%positive := plain ]}) = (Ok tt, w') ∧
    Vertices_getitem (Some "a"%string) w' = (Ok 1%positive, w').
Proof.
  destruct (X3_vertices_store_then_lookup 1%positive plain
              (Some "a"%string) (blank {[ 1%positive := plain ]}))
    as (w' & Hset & Hget & _).
  - vm_compute. reflexivity.
  - exists w'. split; [exact Hset|exact Hget].
Defined.

(** A number before the chain [a, b]. *)
Lemma X4_witness :
  Edges_set_flow_chain [PyInt 0; PyObj 1%positive; PyObj 2%positive]
    two_initialized
  = Edges_set_flow_chain [PyObj 1%positive; PyObj 2%positive] two_initialized.
Proof.
  apply (X4_set_flow_chain_by_links [PyObj 1%positive; PyObj 2%positive]
           two_initialized).
  reflexivity.
Defined.

(** [set_flow_chain(a, "next", b)] on initialised rows. *)
Lemma X5_witness :
  (Edges_set_flow_chain [PyObj 1%positive; PyStr "next"; PyObj 2%positive]
     two_initialized).1 = Ok tt.
Proof.
  rewrite (X5_set_flow_chain_one_link 1%positive 2%positive
             (with_vertex_name (Some "a"%string) plain)
             (with_vertex_name (Some "b"%string) plain)
             [PyObj 1%positive; PyStr "next"; PyObj 2%positive] "next"
             two_initialized).
  - vm_compute. reflexivity.
  - vm_compute. reflexivity.
  - vm_compute. reflexivity.
  - right. reflexivity.
  - left.
Defined.

(** [set_flow_chain(a, 3, b)]. *)
Lemma X6_witness :
  Edges_set_flow_chain [PyObj 1%positive; PyInt 3; PyObj 2%positive]
    two_initialized
  = (Raise TypeError, two_initialized).
Proof.
  apply (X6_set_flow_chain_ill_formed_link 1%positive "next" (PyInt 3)
           [PyObj 2%positive] two_initialized); reflexivity.
Defined.

(** [set_flow_chain("x", 1, a)]: the only vertex comes last. *)
Lemma X7_witness :
  Edges_set_flow_chain [PyStr "x"; PyInt 1; PyObj 1%positive] two_initialized
  = (Ok tt, two_initialized).
Proof.
  apply X7_set_flow_chain_without_source.
  repeat constructor.
Defined.

Lemma X8_witness :
  is_Some
    (heap (run_each run_api
             [VerticesAssign (SetAttr "c" (PyObj 1%positive));
              SetVertexState (Child 1%positive) "nope";
              Step; Reset;
              SetFlowChain [PyObj 2%positive; PyObj 1%positive]]
             two_chain) !! 1%positive).
Proof.
  apply (X8_calls_keep_objects
           [VerticesAssign (SetAttr "c" (PyObj 1%positive));
            SetVertexState (Child 1%positive) "nope";
            Step; Reset;
            SetFlowChain [PyObj 2%positive; PyObj 1%positive]]
           two_chain).
  vm_compute. eauto.
Defined.

Lemma two_chain_states_declared : states_declared two_chain.
Proof.
  split; [left|].
  change (map_Forall
            (λ (_ : loc) v, _vertex_state v ∈ possible_vertex_states v)
            (heap two_chain)).
  apply (bool_decide_unpack _). vm_compute. reflexivity.
Qed.

Lemma X9_witness :
  states_declared
    (run_each run_api
       [SetVertexState (Child 1%positive) "nope";
        SetVertexState (Child 2%positive) "next"; Step]
       two_chain).
Proof.
  apply X9_calls_keep_states_declared. exact two_chain_states_declared.
Defined.

Lemma X10_witness :
  ∃ row' : gmap string pykey,
    edges (Edges_set_flow_chain [PyObj 1%positive; PyObj 2%positive]
             two_initialized).2 !! Some "a"%string = Some row' ∧
    dom (dead_end ["next"%string]) ⊆ dom row'.
Proof.
  apply (X10_set_flow_chain_keeps_rows [PyObj 1%positive; PyObj 2%positive]
           two_initialized).
  vm_compute. reflexivity.
Defined.

(** [_initialize_edges] on the collection with a shadowed vertex, twice. *)
Lemma X11_witness :
  ∃ w1,
    Graph_initialize_edges shadowed_registered = (Ok tt, w1) ∧
    Graph_initialize_edges w1 = (Ok tt, w1).
Proof.
  destruct (X11_initialize_edges_resets_rows shadowed_registered)
    as (w1 & Hinit & _ & _ & _ & Hagain).
  - intros l Hreg. unfold registered in Hreg.
    change (Dict.values (vertices shadowed_registered))
      with [1%positive; 2%positive] in Hreg.
    apply elem_of_cons in Hreg as [->|Hreg]; [vm_compute; eauto|].
    apply elem_of_cons in Hreg as [->|Hreg]; [vm_compute; eauto|].
    by apply not_elem_of_nil in Hreg.
  - exists w1. split; [exact Hinit|exact Hagain].
Defined.

Lemma X12_witness :
  (Graph_step two_chain).2
  = with_active_vertex (active_vertex (Graph_step two_chain).2) two_chain.
Proof.
  apply (X12_step_moves_cursor_only two_chain).
  vm_compute. reflexivity.
Defined.

(** The chain [a -> b] run to its end, then reset. *)
Lemma X13_witness :
  ∃ w'',
    Graph_reset (with_active_vertex None two_chain) = (Ok tt, w'') ∧
    active_vertex w'' = restarting_vertex (with_active_vertex None two_chain).
Proof.
  apply (X13_completed_run_can_be_reset 2 two_chain
           [1%positive; 2%positive] (with_active_vertex None two_chain)).
  vm_compute. reflexivity.
Defined.

(** A graph whose set-up names the object 1 as starting vertex. *)
Lemma X14_witness :
  Graph_init (mt := started)
    (blank {[ 1%positive := plain; 2%positive := plain ]})
  = (Ok tt,
     with_active_vertex (Some 1%positive)
       (Graph_init_set_up (mt := started)
          (blank {[ 1%positive := plain; 2%positive := plain ]})).2).
Proof.
  apply (X14_init_starts_at_starting_vertex (mt := started)).
  - vm_compute. reflexivity.
  - vm_compute. reflexivity.
Defined.

(** Three items, the second for a channel the output does not have. *)
Lemma X16_witness :
  (Vertex_update_and_archive (mt := counting) (Child 1%positive)
     [("energy"%string, tt); ("bogus"%string, tt); ("energy"%string, tt)]
     counters).1 = Raise AttributeError ∧
  @output counting_io <$>
    heap (Vertex_update_and_archive (mt := counting) (Child 1%positive)
            [("energy"%string, tt); ("bogus"%string, tt);
             ("energy"%string, tt)]
            counters).2 !! 1%positive
  = Some 1%nat.
Proof.
  assert (heap counters !! 1%positive
          = Some (Vertex_init (io := counting_io) true 0%nat
                    (Some "a"%string))) as Hl
    by (vm_compute; reflexivity).
  rewrite (X16_update_and_archive_pushes_in_order (mt := counting)
             1%positive _
             [("energy"%string, tt); ("bogus"%string, tt);
              ("energy"%string, tt)]
             counters Hl).
  split; vm_compute; reflexivity.
Defined.

(** The vertex whose input does not resolve. *)
Lemma X17_witness :
  Vertex_execute (mt := counting) 2%positive counters
  = (Raise KeyError, counters).
Proof.
  apply (X17_execute_resolves_then_runs (mt := counting) 2%positive
           (Vertex_init (io := counting_io) false 0%nat (Some "b"%string))).
  - vm_compute. reflexivity.
  - reflexivity.
Defined.

(** Three objects stored, two of them under the same key. *)
Lemma X18_witness :
  Vertices_synced
    (Vertices_store
       [(Some "a"%string, 1%positive); (Some "a"%string, 2%positive);
        (None, 3%positive)]
       (blank {[ 1%positive := plain; 2%positive := plain;
                 3%positive := plain ]})).
Proof.
  apply X18_storing_distinct_objects_keeps_sync.
  - split; [constructor|]. intros k l Hin. by apply not_elem_of_nil in Hin.
  - apply (bool_decide_unpack _). vm_compute. reflexivity.
  - intros k l Hin. split.
    + apply elem_of_cons in Hin as [[= -> ->]|Hin]; [vm_compute; eauto|].
      apply elem_of_cons in Hin as [[= -> ->]|Hin]; [vm_compute; eauto|].
      apply elem_of_cons in Hin as [[= -> ->]|Hin]; [vm_compute; eauto|].
      by apply not_elem_of_nil in Hin.
    + intros Hreg. by apply not_elem_of_nil in Hreg.
Defined.

End MoreConcrete.

(** * Runs in which a vertex reads what another has pushed *)
Section DataFlow.
Import Scenario.
#[local] Existing Instance piped_io.
#[local] Existing Instance piped.

Lemma piped_function_frame (l : loc) (kwargs : Kwargs) (w : World) :
  same_flow w (function l kwargs w).2 ∧
  active_vertex (function l kwargs w).2 = active_vertex w.
Proof. split; [apply same_flow_refl|reflexivity]. Qed.

(** In the chain [a -> b] the vertex [b] cannot execute before [a] has
    pushed; the run executes [a], then [b], and stops. *)
Lemma C1_witness :
  (Vertex_execute 2%positive pipe_chain).1 = Raise KeyError ∧
  ∃ w',
    Graph_function_loop 2 pipe_chain
      = Some ([1%positive; 2%positive], (Ok tt, w')) ∧
    active_vertex w' = None ∧
    Graph_function 2 pipe_chain
      = Some ([1%positive; 2%positive], get_output w').
Proof.
  split; [vm_compute; reflexivity|].
  apply (C1_linear_chain_runs_each_vertex_once
           pipe_chain 1%positive [2%positive] 2).
  - reflexivity.
  - vm_compute. reflexivity.
  - apply (normal_turns_turn 1 pipe_chain 1%positive).
    + reflexivity.
    + vm_compute. reflexivity.
    + apply piped_function_frame.
    + apply (normal_turns_turn 0 _ 2%positive).
      * vm_compute. reflexivity.
      * vm_compute. reflexivity.
      * apply piped_function_frame.
      * exact I.
  - simpl. lia.
Defined.

(** In the cycle [a -> b -> a] the vertex [b] cannot execute before [a] has
    pushed; the run is still going after five turns. *)
Lemma X15_witness :
  (Vertex_execute 2%positive pipe_cycle).1 = Raise KeyError ∧
  Graph_function_loop 5 pipe_cycle = None ∧
  Graph_function 5 pipe_cycle = None.
Proof.
  split; [vm_compute; reflexivity|].
  apply (X15_cycle_never_ends pipe_cycle [1%positive; 2%positive]
           1%positive 5).
  - reflexivity.
  - left.
  - intros l Hin. apply elem_of_cons in Hin as [->|Hin].
    + exists 2%positive. split; [right; left|vm_compute; reflexivity].
    + apply elem_of_cons in Hin as [->|Hin].
      * exists 1%positive. split; [left|vm_compute; reflexivity].
      * by apply not_elem_of_nil in Hin.
  - apply (normal_turns_turn 4 pipe_cycle 1%positive);
      [reflexivity|vm_compute; reflexivity|apply piped_function_frame|].
    apply (normal_turns_turn 3 _ 2%positive);
      [vm_compute; reflexivity|vm_compute; reflexivity
      |apply piped_function_frame|].
    apply (normal_turns_turn 2 _ 1%positive);
      [vm_compute; reflexivity|vm_compute; reflexivity
      |apply piped_function_frame|].
    apply (normal_turns_turn 1 _ 2%positive);
      [vm_compute; reflexivity|vm_compute; reflexivity
      |apply piped_function_frame|].
    apply (normal_turns_turn 0 _ 1%positive);
      [vm_compute; reflexivity|vm_compute; reflexivity
      |apply piped_function_frame|].
    exact I.
Defined.

End DataFlow.
